(** * fastify-file-upload-api: the upload, listing and deletion handlers of
      [src/server.ts], embedded as state-passing functions over an explicit
      model of the two storage directories, the clock and the UUID source. *)

From Stdlib Require Import ZArith String Ascii List Bool Lia.
From Stdlib.Strings Require Byte.
From stdpp Require Import base option list gmap strings.

Local Open Scope string_scope.
Local Open Scope Z_scope.

(** ** Strings: the [node:path] and [String.prototype] helpers the handlers call *)

Module Path.

(** File names are byte strings; [toLowerCase] is modelled on the ASCII
    letters, which are the only ones the whitelists contain. *)
Definition lower_ascii (c : ascii) : ascii :=
  let n := nat_of_ascii c in
  if ((65 <=? n)%nat && (n <=? 90)%nat)%bool then ascii_of_nat (n + 32) else c.

Fixpoint toLowerCase (s : string) : string :=
  match s with
  | EmptyString => EmptyString
  | String c rest => String (lower_ascii c) (toLowerCase rest)
  end.

Definition CHAR_FORWARD_SLASH : ascii := "/"%char.
Definition CHAR_DOT : ascii := "."%char.

(** The local variables of [path.posix.extname]. *)
Record ExtnameState := {
  startDot : Z;
  startPart : Z;
  end_ : Z;
  matchedSlash : bool;
  preDotState : Z
}.

Definition extname_init : ExtnameState :=
  {| startDot := -1; startPart := 0; end_ := -1;
     matchedSlash := true; preDotState := 0 |}.

(** One iteration of the backwards scan at index [i]; the boolean is
    [true] when the iteration executes [break]. *)
Definition extname_step (i : Z) (code : ascii) (st : ExtnameState)
  : ExtnameState * bool :=
  if Ascii.eqb code CHAR_FORWARD_SLASH then
    if negb (matchedSlash st) then
      ({| startDot := startDot st; startPart := i + 1; end_ := end_ st;
          matchedSlash := matchedSlash st; preDotState := preDotState st |},
       true)
    else (st, false)
  else
    let st1 :=
      if end_ st =? -1 then
        {| startDot := startDot st; startPart := startPart st;
           end_ := i + 1; matchedSlash := false;
           preDotState := preDotState st |}
      else st in
    let st2 :=
      if Ascii.eqb code CHAR_DOT then
        if startDot st1 =? -1 then
          {| startDot := i; startPart := startPart st1; end_ := end_ st1;
             matchedSlash := matchedSlash st1;
             preDotState := preDotState st1 |}
        else if negb (preDotState st1 =? 1) then
          {| startDot := startDot st1; startPart := startPart st1;
             end_ := end_ st1; matchedSlash := matchedSlash st1;
             preDotState := 1 |}
        else st1
      else if negb (startDot st1 =? -1) then
        {| startDot := startDot st1; startPart := startPart st1;
           end_ := end_ st1; matchedSlash := matchedSlash st1;
           preDotState := -1 |}
      else st1 in
    (st2, false).

(** The [for (i = path.length - 1; i >= 0; --i)] loop of the POSIX
    [extname], over the characters in reverse order. *)
Fixpoint extname_loop (rev_chars : list ascii) (i : Z) (st : ExtnameState)
  : ExtnameState :=
  match rev_chars with
  | [] => st
  | code :: rest =>
      let '(st', stop) := extname_step i code st in
      if stop then st' else extname_loop rest (i - 1) st'
  end.

Definition slice (s : string) (from to : Z) : string :=
  String.substring (Z.to_nat from) (Z.to_nat (to - from)) s.

Definition extname (path : string) : string :=
  let chars := list_ascii_of_string path in
  let st := extname_loop (rev chars) (Z.of_nat (length chars) - 1)
                         extname_init in
  if (startDot st =? -1) || (end_ st =? -1) || (preDotState st =? 0)
     || ((preDotState st =? 1) && (startDot st =? end_ st - 1)
         && (startDot st =? startPart st + 1))
  then ""
  else slice path (startDot st) (end_ st).

(** [Array.prototype.includes] on a list of string literals. *)
Definition includes (l : list string) (x : string) : bool :=
  bool_decide (x ∈ l).

End Path.

(** ** The [uuid] package: rendering of a 128-bit identifier *)

Module Uuid.

Definition hexDigit (n : N) : ascii :=
  nth (N.to_nat n) (list_ascii_of_string "0123456789abcdef") "0"%char.

(** [byteToHex[i] = (i + 0x100).toString(16).slice(1)] *)
Definition byteToHex (b : Byte.byte) : string :=
  let n := Byte.to_N b in
  String (hexDigit (N.shiftr n 4)) (String (hexDigit (N.land n 15)) "").

Definition hex (arr : list Byte.byte) (k : nat) : string :=
  byteToHex (nth k arr Byte.x00).

(** [unsafeStringify]: the canonical 8-4-4-4-12 text of sixteen bytes. *)
Definition stringify (arr : list Byte.byte) : string :=
  hex arr 0 +:+ hex arr 1 +:+ hex arr 2 +:+ hex arr 3 +:+ "-" +:+
  hex arr 4 +:+ hex arr 5 +:+ "-" +:+
  hex arr 6 +:+ hex arr 7 +:+ "-" +:+
  hex arr 8 +:+ hex arr 9 +:+ "-" +:+
  hex arr 10 +:+ hex arr 11 +:+ hex arr 12 +:+ hex arr 13 +:+
  hex arr 14 +:+ hex arr 15.

End Uuid.

(** ** The world the handlers run in *)

(** The two storage directories map a file name to the bytes on disk.  The
    clock and the UUID source are read in order: [clock w n] is the n-th
    value returned by [Date.now()] / [new Date()], [rng w n] the sixteen
    bytes of the n-th identifier returned by [uuidv4()]. *)
Record World := {
  uploads : gmap string (list Byte.byte);
  certificates : gmap string (list Byte.byte);
  clock : nat -> Z;
  ticks : nat;
  rng : nat -> list Byte.byte;
  draws : nat
}.

Inductive Dir := uploadsDir | certificatesDir.

Definition dir_files (d : Dir) (w : World) : gmap string (list Byte.byte) :=
  match d with
  | uploadsDir => uploads w
  | certificatesDir => certificates w
  end.

Definition set_dir_files (d : Dir) (m : gmap string (list Byte.byte))
    (w : World) : World :=
  match d with
  | uploadsDir =>
      {| uploads := m; certificates := certificates w; clock := clock w;
         ticks := ticks w; rng := rng w; draws := draws w |}
  | certificatesDir =>
      {| uploads := uploads w; certificates := m; clock := clock w;
         ticks := ticks w; rng := rng w; draws := draws w |}
  end.

(** A JavaScript computation either completes normally or throws; the world
    it has changed so far survives a throw. *)
Inductive Completion (A : Type) :=
| Normal (a : A)
| Thrown.
Arguments Normal {A} a.
Arguments Thrown {A}.

Definition IO (A : Type) : Type := World -> Completion A * World.

Definition ret {A} (a : A) : IO A := fun w => (Normal a, w).

Definition bind {A B} (m : IO A) (k : A -> IO B) : IO B :=
  fun w =>
    match m w with
    | (Normal a, w') => k a w'
    | (Thrown, w') => (Thrown, w')
    end.

Definition throw {A} : IO A := fun w => (Thrown, w).

(** [try { body } catch (error) { handler }] *)
Definition try_catch {A} (body handler : IO A) : IO A :=
  fun w =>
    match body w with
    | (Normal a, w') => (Normal a, w')
    | (Thrown, w') => handler w'
    end.

Declare Scope io_scope.
Delimit Scope io_scope with io.
Notation "x <- m ;; k" := (bind m (fun x => k))
  (at level 100, m at next level, right associativity) : io_scope.
Notation "m ;;; k" := (bind m (fun _ => k))
  (at level 100, right associativity) : io_scope.
Local Open Scope io_scope.

(** *** File-system, clock and randomness primitives *)

Record Stats := { size : Z }.

Definition existsSync (d : Dir) (name : string) : IO bool :=
  fun w => (Normal (bool_decide (is_Some (dir_files d w !! name))), w).

(** [fs.statSync] throws ENOENT when the file is missing. *)
Definition statSync (d : Dir) (name : string) : IO Stats :=
  fun w =>
    match dir_files d w !! name with
    | Some bytes => (Normal {| size := Z.of_nat (length bytes) |}, w)
    | None => (Thrown, w)
    end.

Definition unlinkSync (d : Dir) (name : string) : IO unit :=
  fun w =>
    match dir_files d w !! name with
    | Some _ => (Normal tt, set_dir_files d (delete name (dir_files d w)) w)
    | None => (Thrown, w)
    end.

Definition readdirSync (d : Dir) : IO (list string) :=
  fun w => (Normal (map_to_list (dir_files d w)).*1, w).

(** The readable side of an uploaded file as the multipart parser hands it
    to the handler: [delivered] are the bytes that reach the destination,
    [errored] tells whether the stream then ends with an error (client
    disconnect, disk error) instead of a normal end, [readableLength] is the
    number of bytes sitting in the stream's buffer when the handler looks. *)
Record Readable := {
  delivered : list Byte.byte;
  errored : bool;
  readableLength : Z
}.

(** The world after [bytes] have been written to the file [name] of [d]. *)
Definition write_file (d : Dir) (name : string) (bytes : list Byte.byte)
    (w : World) : World :=
  set_dir_files d (<[name := bytes]> (dir_files d w)) w.

(** [pump(source, fs.createWriteStream(path))]: the write stream creates the
    file and appends what the source delivers; when the source fails the
    promise rejects and the file stays as it is (nothing in [pipeline] or in
    the write stream unlinks it). *)
Definition pump (source : Readable) (d : Dir) (name : string) : IO unit :=
  fun w =>
    let w' := write_file d name (delivered source) w in
    if errored source then (Thrown, w') else (Normal tt, w').

(** The world after [n] more clock reads, and after [n] more identifiers
    have been drawn. *)
Definition tick (n : nat) (w : World) : World :=
  {| uploads := uploads w; certificates := certificates w;
     clock := clock w; ticks := (n + ticks w)%nat;
     rng := rng w; draws := draws w |}.

Definition drawn (n : nat) (w : World) : World :=
  {| uploads := uploads w; certificates := certificates w;
     clock := clock w; ticks := ticks w;
     rng := rng w; draws := (n + draws w)%nat |}.

(** [Date.now()] and [new Date()] *)
Definition Date_now : IO Z :=
  fun w => (Normal (clock w (ticks w)), tick 1 w).

Definition uuidv4 : IO string :=
  fun w => (Normal (Uuid.stringify (rng w (draws w))), drawn 1 w).

(** ** Requests and replies *)

(** [limits.fileSize] given to the multipart plugin (server.ts line 74). *)
Definition fileSize : Z := 5 * 1024 * 1024.

(** The size-limited parser pushes at most [fileSize] bytes of a file part
    into its stream. *)
Definition limited (sent : list Byte.byte) : list Byte.byte :=
  take (Z.to_nat fileSize) sent.

Arguments limited : simpl never.

(** A file part of a multipart body ([part.type === "file"]).  [sent] are the
    bytes the client transfers for the part before its stream ends,
    [aborted] tells whether the stream ends with an error (client
    disconnect, disk error), [buffered] is the stream's [readableLength]
    when the handler reads it.  The handler sees the part's stream through
    [file_of]. *)
Record MultipartFile := {
  fieldname : string;
  filename : string;
  mimetype : string;
  sent : list Byte.byte;
  aborted : bool;
  buffered : Z
}.

Definition file_of (data : MultipartFile) : Readable :=
  {| delivered := limited (sent data);
     errored := aborted data;
     readableLength := buffered data |}.

Inductive Part :=
| FilePart (data : MultipartFile)
| FieldPart (name value : string).

Inductive Body :=
| NotMultipart
| Multipart (parts : list Part).

(** [request.file()]: the first file part, [undefined] when there is none;
    it throws when the request is not multipart. *)
Fixpoint first_file (parts : list Part) : option MultipartFile :=
  match parts with
  | [] => None
  | FilePart data :: _ => Some data
  | FieldPart _ _ :: rest => first_file rest
  end.

Definition request_file (body : Body) : IO (option MultipartFile) :=
  match body with
  | NotMultipart => throw
  | Multipart parts => ret (first_file parts)
  end.

(** [request.parts()], iterated to the end. *)
Definition request_parts (body : Body) : IO (list Part) :=
  match body with
  | NotMultipart => throw
  | Multipart parts => ret parts
  end.

Record ErrorResponse := { error : string; message : string }.

Module UploadResponse.
Record t := {
  success : bool;
  message : string;
  filename : string;
  originalName : string;
  size : Z;
  mimetype : string;
  url : string
}.
End UploadResponse.

Module CertificateUploadResponse.
Record t := {
  success : bool;
  message : string;
  filename : string;
  originalName : string;
  size : Z;
  mimetype : string;
  expirationDate : Z;   (* the Date's time value; sent as an ISO string *)
  subject : string;
  issuer : string
}.
End CertificateUploadResponse.

Module ImageInfo.
Record t := { filename : string; url : string; size : Z }.
End ImageInfo.

Inductive Status := active | expired | expiring_soon.

(** An entry of the certificate listing ([uploadDate], the file's birth
    time, is left out: the storage model keeps no time stamps). *)
Module CertificateInfo.
Record t := {
  filename : string;
  originalName : string;
  size : Z;
  subject : string;
  expirationDate : Z;
  status : Status
}.
End CertificateInfo.

Inductive Payload :=
| ErrorBody (e : ErrorResponse)
| UploadBody (r : UploadResponse.t)
| CertificateUploadBody (r : CertificateUploadResponse.t)
| ImagesBody (images : list ImageInfo.t) (total : Z)
| CertificatesBody (certificates : list CertificateInfo.t) (total : Z)
| DeletedBody (success : bool) (message : string).

Record Reply := { code : Z; payload : Payload }.

Definition send (status : Z) (p : Payload) : IO Reply :=
  ret {| code := status; payload := p |}.

Definition error_reply (status : Z) (err msg : string) : Reply :=
  {| code := status; payload := ErrorBody {| error := err; message := msg |} |}.

Definition send_error (status : Z) (err msg : string) : IO Reply :=
  ret (error_reply status err msg).

(** [array.map(callback)] with a callback that reads the world. *)
Fixpoint mapM {A B} (f : A -> IO B) (l : list A) : IO (list B) :=
  match l with
  | [] => ret []
  | x :: rest => y <- f x ;; ys <- mapM f rest ;; ret (y :: ys)
  end.

(** ** The handlers of [buildServer] *)

(** *** POST /upload (server.ts lines 242-296) *)

Definition allowedTypes : list string :=
  ["image/jpeg"; "image/jpg"; "image/png"; "image/gif"].

(** [`${uuidv4()}${fileExtension}`] *)
Definition imageFilename (id fileExtension : string) : string :=
  id +:+ fileExtension.

Definition post_upload (body : Body) : IO Reply :=
  try_catch
    (data <- request_file body ;;
     match data with
     | None =>
         send_error 400 "Arquivo não encontrado"
                    "Nenhum arquivo foi enviado na requisição"
     | Some data =>
         if negb (Path.includes allowedTypes (mimetype data)) then
           send_error 400 "Tipo de arquivo inválido"
                      "Apenas arquivos JPG, PNG e GIF são permitidos"
         else
           let fileExtension := Path.extname (filename data) in
           id <- uuidv4 ;;
           let uniqueFilename := imageFilename id fileExtension in
           pump (file_of data) uploadsDir uniqueFilename ;;;
           stats <- statSync uploadsDir uniqueFilename ;;
           send 200 (UploadBody
             {| UploadResponse.success := true;
                UploadResponse.message := "Imagem enviada com sucesso";
                UploadResponse.filename := uniqueFilename;
                UploadResponse.originalName := filename data;
                UploadResponse.size := size stats;
                UploadResponse.mimetype := mimetype data;
                UploadResponse.url :=
                  "http://localhost:3000/uploads/" +:+ uniqueFilename |})
     end)
    (send_error 500 "Erro interno do servidor"
                "Ocorreu um erro ao processar o upload da imagem").

(** *** GET /images (lines 329-358) *)

Definition imageExtensions : list string := [".jpg"; ".jpeg"; ".png"; ".gif"].

Definition isImageFile (file : string) : bool :=
  let ext := Path.toLowerCase (Path.extname file) in
  Path.includes imageExtensions ext.

Definition imageInfo (filename : string) : IO ImageInfo.t :=
  stats <- statSync uploadsDir filename ;;
  ret {| ImageInfo.filename := filename;
         ImageInfo.url := "http://localhost:3000/uploads/" +:+ filename;
         ImageInfo.size := size stats |}.

Definition get_images : IO Reply :=
  try_catch
    (files <- readdirSync uploadsDir ;;
     let imageFiles := List.filter isImageFile files in
     images <- mapM imageInfo imageFiles ;;
     send 200 (ImagesBody images (Z.of_nat (length images))))
    (send_error 500 "Erro interno do servidor" "Erro ao listar imagens").

(** *** DELETE /images/:filename (lines 401-426) *)

Definition delete_image (filename : string) : IO Reply :=
  try_catch
    (found <- existsSync uploadsDir filename ;;
     if negb found then
       send_error 404 "Arquivo não encontrado"
                  "A imagem especificada não existe"
     else
       unlinkSync uploadsDir filename ;;;
       send 200 (DeletedBody true "Imagem deletada com sucesso"))
    (send_error 500 "Erro interno do servidor" "Erro ao deletar imagem").

(** *** POST /upload-certificate (lines 482-585) *)

(** The body of the [for await (const part of parts)] loop on the pair
    [(certificateFile, password)]. *)
Definition collect_part (acc : option MultipartFile * string) (part : Part)
  : option MultipartFile * string :=
  match part with
  | FilePart data =>
      if String.eqb (fieldname data) "certificate" then (Some data, acc.2)
      else acc
  | FieldPart name value =>
      if String.eqb name "password" then (acc.1, value) else acc
  end.

Definition collect_parts (parts : list Part) : option MultipartFile * string :=
  fold_left collect_part parts (None, "").

Definition allowedExtensions : list string := [".pfx"; ".p12"].

Definition maxSize : Z := 5 * 1024 * 1024.

Definition year_ms : Z := 365 * 24 * 60 * 60 * 1000.

(** [`cert_${uuidv4()}${fileExtension}`] *)
Definition certificateFilename (id fileExtension : string) : string :=
  "cert_" +:+ id +:+ fileExtension.

Definition post_upload_certificate (body : Body) : IO Reply :=
  try_catch
    (parts <- request_parts body ;;
     let '(certificateFile, password) := collect_parts parts in
     match certificateFile with
     | None =>
         send_error 400 "Certificado não encontrado"
                    "Nenhum arquivo de certificado foi enviado na requisição"
     | Some certificateFile =>
         if String.eqb password "" then
           send_error 400 "Senha obrigatória"
                      "A senha do certificado é obrigatória"
         else
           let fileExtension :=
             Path.toLowerCase (Path.extname (filename certificateFile)) in
           if negb (Path.includes allowedExtensions fileExtension) then
             send_error 400 "Tipo de arquivo inválido"
               "Apenas arquivos .pfx e .p12 são permitidos para certificados digitais"
           else if maxSize <? readableLength (file_of certificateFile) then
             send_error 400 "Arquivo muito grande"
                        "O certificado deve ter no máximo 5MB"
           else
             id <- uuidv4 ;;
             let uniqueFilename := certificateFilename id fileExtension in
             pump (file_of certificateFile) certificatesDir uniqueFilename ;;;
             stats <- statSync certificatesDir uniqueFilename ;;
             now <- Date_now ;;
             send 200 (CertificateUploadBody
               {| CertificateUploadResponse.success := true;
                  CertificateUploadResponse.message :=
                    "Certificado digital enviado e validado com sucesso";
                  CertificateUploadResponse.filename := uniqueFilename;
                  CertificateUploadResponse.originalName :=
                    filename certificateFile;
                  CertificateUploadResponse.size := size stats;
                  CertificateUploadResponse.mimetype :=
                    mimetype certificateFile;
                  CertificateUploadResponse.expirationDate := now + year_ms;
                  CertificateUploadResponse.subject :=
                    "CN=Empresa Exemplo, O=Empresa Exemplo LTDA";
                  CertificateUploadResponse.issuer :=
                    "CN=AC Exemplo, O=Autoridade Certificadora Exemplo" |})
     end)
    (send_error 500 "Erro interno do servidor"
                "Ocorreu um erro ao processar o upload do certificado").

(** *** GET /certificates (lines 626-677) *)

Definition isCertificateFile (file : string) : bool :=
  let ext := Path.toLowerCase (Path.extname file) in
  Path.includes allowedExtensions ext.

(** [Math.ceil(a / b)] on integer time values, for a positive [b]. *)
Definition ceil_div (a b : Z) : Z := - ((- a) / b).

Definition day_ms : Z := 1000 * 60 * 60 * 24.

Definition daysUntilExpiration (mockExpirationDate now : Z) : Z :=
  ceil_div (mockExpirationDate - now) day_ms.

(** [let status = "active"; if (d < 0) ... else if (d <= 30) ...] *)
Definition statusOf (days : Z) : Status :=
  if days <? 0 then expired
  else if days <=? 30 then expiring_soon
  else active.

Definition classify (expirationDate now : Z) : Status :=
  statusOf (daysUntilExpiration expirationDate now).

(** [filename.replace(/^cert_[a-f0-9-]+_/, "")] *)
Definition in_uuid_class (c : ascii) : bool :=
  let n := nat_of_ascii c in
  ((97 <=? n)%nat && (n <=? 102)%nat) || ((48 <=? n)%nat && (n <=? 57)%nat)
  || Ascii.eqb c "-"%char.

Fixpoint drop_uuid_class (s : string) : string :=
  match s with
  | String c rest => if in_uuid_class c then drop_uuid_class rest else s
  | EmptyString => EmptyString
  end.

Definition strip_cert_prefix (filename : string) : string :=
  if String.prefix "cert_" filename then
    let rest := String.substring 5 (String.length filename - 5) filename in
    let after := drop_uuid_class rest in
    match after with
    | String c tail =>
        if Ascii.eqb c "_"%char
           && (String.length after <? String.length rest)%nat
        then tail else filename
    | EmptyString => filename
    end
  else filename.

Definition certificateInfo (filename : string) : IO CertificateInfo.t :=
  stats <- statSync certificatesDir filename ;;
  t <- Date_now ;;
  let mockExpirationDate := t + year_ms in
  now <- Date_now ;;
  let status := classify mockExpirationDate now in
  ret {| CertificateInfo.filename := filename;
         CertificateInfo.originalName := strip_cert_prefix filename;
         CertificateInfo.size := size stats;
         CertificateInfo.subject :=
           "CN=Empresa Exemplo, O=Empresa Exemplo LTDA";
         CertificateInfo.expirationDate := mockExpirationDate;
         CertificateInfo.status := status |}.

Definition get_certificates : IO Reply :=
  try_catch
    (files <- readdirSync certificatesDir ;;
     let certificateFiles := List.filter isCertificateFile files in
     certificates <- mapM certificateInfo certificateFiles ;;
     send 200 (CertificatesBody certificates
                                (Z.of_nat (length certificates))))
    (send_error 500 "Erro interno do servidor" "Erro ao listar certificados").

(** *** DELETE /certificates/:filename (lines 721-765) *)

Definition delete_certificate (filename : string) : IO Reply :=
  try_catch
    (found <- existsSync certificatesDir filename ;;
     if negb found then
       send_error 404 "Certificado não encontrado"
                  "O certificado especificado não existe"
     else
       let fileExtension := Path.toLowerCase (Path.extname filename) in
       if negb (Path.includes allowedExtensions fileExtension) then
         send_error 400 "Arquivo inválido"
           "Apenas certificados .pfx e .p12 podem ser deletados por esta rota"
       else
         unlinkSync certificatesDir filename ;;;
         send 200 (DeletedBody true "Certificado digital deletado com sucesso"))
    (send_error 500 "Erro interno do servidor" "Erro ao deletar certificado").

(** ** The routes *)

Inductive Request :=
| POST_upload (body : Body)
| GET_images
| DELETE_images (filename : string)
| POST_upload_certificate (body : Body)
| GET_certificates
| DELETE_certificates (filename : string).

Definition handle (req : Request) : IO Reply :=
  match req with
  | POST_upload body => post_upload body
  | GET_images => get_images
  | DELETE_images filename => delete_image filename
  | POST_upload_certificate body => post_upload_certificate body
  | GET_certificates => get_certificates
  | DELETE_certificates filename => delete_certificate filename
  end.

(** Requests served one after the other; a handler that throws would leave
    no reply. *)
Fixpoint serve (reqs : list Request) (w : World) : list Reply * World :=
  match reqs with
  | [] => ([], w)
  | req :: rest =>
      match handle req w with
      | (Normal reply, w') =>
          let '(replies, w'') := serve rest w' in (reply :: replies, w'')
      | (Thrown, w') => serve rest w'
      end
  end.

(** The stored name a successful ingest reports. *)
Definition stored_name (reply : Reply) : option string :=
  match payload reply with
  | UploadBody r => Some (UploadResponse.filename r)
  | CertificateUploadBody r => Some (CertificateUploadResponse.filename r)
  | _ => None
  end.

(** The [error] tag of a structured error reply. *)
Definition error_tag (reply : Reply) : option string :=
  match payload reply with
  | ErrorBody e => Some (error e)
  | _ => None
  end.

(** The error replies written in each handler; the list depends on the
    route only. *)
Definition error_replies (req : Request) : list Reply :=
  match req with
  | POST_upload _ =>
      [ error_reply 400 "Arquivo não encontrado"
          "Nenhum arquivo foi enviado na requisição";
        error_reply 400 "Tipo de arquivo inválido"
          "Apenas arquivos JPG, PNG e GIF são permitidos";
        error_reply 500 "Erro interno do servidor"
          "Ocorreu um erro ao processar o upload da imagem" ]
  | GET_images =>
      [ error_reply 500 "Erro interno do servidor" "Erro ao listar imagens" ]
  | DELETE_images _ =>
      [ error_reply 404 "Arquivo não encontrado"
          "A imagem especificada não existe";
        error_reply 500 "Erro interno do servidor" "Erro ao deletar imagem" ]
  | POST_upload_certificate _ =>
      [ error_reply 400 "Certificado não encontrado"
          "Nenhum arquivo de certificado foi enviado na requisição";
        error_reply 400 "Senha obrigatória"
          "A senha do certificado é obrigatória";
        error_reply 400 "Tipo de arquivo inválido"
          "Apenas arquivos .pfx e .p12 são permitidos para certificados digitais";
        error_reply 400 "Arquivo muito grande"
          "O certificado deve ter no máximo 5MB";
        error_reply 500 "Erro interno do servidor"
          "Ocorreu um erro ao processar o upload do certificado" ]
  | GET_certificates =>
      [ error_reply 500 "Erro interno do servidor"
          "Erro ao listar certificados" ]
  | DELETE_certificates _ =>
      [ error_reply 404 "Certificado não encontrado"
          "O certificado especificado não existe";
        error_reply 400 "Arquivo inválido"
          "Apenas certificados .pfx e .p12 podem ser deletados por esta rota";
        error_reply 500 "Erro interno do servidor"
          "Erro ao deletar certificado" ]
  end.


(** ** Plain characters *)

(** A character that is neither the dot nor the path separator, and a
    string made of such characters. *)
Definition plain (c : ascii) : Prop :=
  c <> Path.CHAR_FORWARD_SLASH /\ c <> Path.CHAR_DOT.

Definition plain_string (s : string) : Prop :=
  Forall plain (list_ascii_of_string s).

(** A scan state that has found a dot at position [length stem], followed by
    the plain characters [ext] up to [end_]. *)
Definition dotted (chars : list ascii) (st : Path.ExtnameState) : Prop :=
  exists (stem ext rest : list ascii),
    chars = (stem ++ "."%char :: ext ++ rest)%list
    /\ Forall plain ext
    /\ Path.startDot st = Z.of_nat (length stem)
    /\ Path.end_ st = Z.of_nat (length stem) + 1 + Z.of_nat (length ext).

(** ** Sample worlds and requests *)

(** Identifier number [n] of the sample source: fifteen fixed bytes and the
    byte [n]. *)
Definition sample_id (n : nat) : list Byte.byte :=
  (repeat Byte.x2a 15 ++ [default Byte.x00 (Byte.of_N (N.of_nat n))])%list.

Definition empty_world : World :=
  {| uploads := ∅; certificates := ∅;
     clock := fun n => Z.of_nat n + 1700000000000; ticks := 0;
     rng := sample_id; draws := 0 |}.

(** An executable sent with an image MIME type. *)
Definition exe_as_png : MultipartFile :=
  {| fieldname := "image"; filename := "setup.exe"; mimetype := "image/png";
     sent := [Byte.x4d; Byte.x5a]; aborted := false; buffered := 2 |}.


Definition text_as_certificate : MultipartFile :=
  {| fieldname := "certificate"; filename := "notes.txt";
     mimetype := "application/x-pkcs12";
     sent := [Byte.x30; Byte.x82]; aborted := false; buffered := 2 |}.

Definition good_certificate : MultipartFile :=
  {| fieldname := "certificate"; filename := "Company.PFX";
     mimetype := "application/x-pkcs12";
     sent := [Byte.x30; Byte.x82; Byte.x0a]; aborted := false;
     buffered := 3 |}.


(** A world that stores one certificate and one image. *)
Definition stocked_world : World :=
  {| uploads := {[ "7f3c2a10-0000-4000-8000-000000000001.png" :=
                     [Byte.x89; Byte.x50; Byte.x4e; Byte.x47] ]};
     certificates := {[ "cert_7f3c2a10-0000-4000-8000-000000000002.pfx" :=
                          [Byte.x30; Byte.x82] ]};
     clock := fun n => Z.of_nat n + 1700000000000; ticks := 0;
     rng := sample_id; draws := 0 |}.


(** A text file sent with an image MIME type. *)
Definition text_as_png : MultipartFile :=
  {| fieldname := "image"; filename := "notes.txt"; mimetype := "image/png";
     sent := [Byte.x68; Byte.x69]; aborted := false; buffered := 2 |}.

(** A world whose certificate directory holds a file that is no
    certificate. *)
Definition stray_world : World :=
  {| uploads := ∅;
     certificates := {[ "readme.txt" := [Byte.x68; Byte.x69] ]};
     clock := fun n => Z.of_nat n + 1700000000000; ticks := 0;
     rng := sample_id; draws := 0 |}.













(** A PNG image whose file name carries an upper-case extension. *)
Definition good_png : MultipartFile :=
  {| fieldname := "image"; filename := "Photo.PNG"; mimetype := "image/png";
     sent := [Byte.x89; Byte.x50; Byte.x4e; Byte.x47]; aborted := false;
     buffered := 4 |}.


(** A world whose identifier source returns the same identifier twice. *)
Definition repeating_world : World :=
  {| uploads := ∅; certificates := ∅;
     clock := fun n => Z.of_nat n + 1700000000000; ticks := 0;
     rng := fun _ => sample_id 0; draws := 0 |}.

(** An image upload without any byte. *)
Definition empty_png : MultipartFile :=
  {| fieldname := "image"; filename := "blank.png"; mimetype := "image/png";
     sent := []; aborted := false; buffered := 0 |}.


(** A second PNG image, with an upper-case extension like [good_png]. *)
Definition second_png : MultipartFile :=
  {| fieldname := "image"; filename := "Retry.PNG"; mimetype := "image/png";
     sent := [Byte.x89; Byte.x50]; aborted := false; buffered := 2 |}.

(** * Properties *)

(** ** [path.extname] on sample names *)

Example extname_examples :
  Path.extname "photo.PNG" = ".PNG" /\ Path.extname ".bashrc" = "" /\
  Path.extname "a.tar.gz" = ".gz" /\ Path.extname "a." = "." /\
  Path.extname ".." = "" /\ Path.extname "dir.d/file" = "" /\
  Path.extname "x.pfx/" = ".pfx" /\ Path.extname "" = "" /\
  Path.toLowerCase (Path.extname "C.PfX") = ".pfx".
Proof. repeat split; vm_compute; reflexivity. Qed.

(** ** Lifecycle classification *)

Lemma ceil_div_bounds (a b : Z) :
  0 < b -> (ceil_div a b - 1) * b < a <= ceil_div a b * b.
Proof.
  intros Hb. unfold ceil_div.
  pose proof (Z.div_mod (- a) b ltac:(lia)) as Hdm.
  pose proof (Z.mod_pos_bound (- a) b Hb) as Hm.
  nia.
Qed.


Lemma day_ms_pos : 0 < day_ms.
Proof. reflexivity. Qed.

Lemma statusOf_expired (d : Z) : statusOf d = expired <-> d < 0.
Proof.
  unfold statusOf.
  destruct (Z.ltb_spec d 0); [ | destruct (Z.leb_spec d 30) ];
    split; intros; (lia || congruence).
Qed.


Lemma statusOf_active (d : Z) : statusOf d = active <-> 30 < d.
Proof.
  unfold statusOf.
  destruct (Z.ltb_spec d 0); [ | destruct (Z.leb_spec d 30) ];
    split; intros; (lia || congruence).
Qed.



(** ** Running the monad *)

Ltac io_unfold :=
  cbv beta iota zeta delta
    [bind ret send send_error try_catch throw request_file request_parts
     existsSync statSync unlinkSync readdirSync pump Date_now uuidv4].

Lemma tick_0 (w : World) : tick 0 w = w.
Proof. now destruct w. Qed.

Lemma tick_tick (n m : nat) (w : World) : tick n (tick m w) = tick (n + m) w.
Proof. unfold tick; simpl. f_equal. lia. Qed.

Lemma includes_elem_of (l : list string) (x : string) :
  Path.includes l x = true <-> x ∈ l.
Proof. unfold Path.includes. apply bool_decide_eq_true. Qed.

Lemma elem_of_readdir (m : gmap string (list Byte.byte)) (name : string) :
  name ∈ (map_to_list m).*1 <-> is_Some (m !! name).
Proof.
  rewrite list_elem_of_fmap. split.
  - intros [[k v] [-> Hin]]. apply elem_of_map_to_list in Hin. now exists v.
  - intros [v Hv]. exists (name, v). split; [ done | ].
    now apply elem_of_map_to_list.
Qed.

Lemma elem_of_List_filter {A} (f : A -> bool) (l : list A) (x : A) :
  x ∈ List.filter f l <-> x ∈ l /\ f x = true.
Proof. rewrite !list_elem_of_In. apply filter_In. Qed.


(** ** Listings *)

Lemma mapM_imageInfo (l : list string) (w : World) :
  Forall (fun name => is_Some (uploads w !! name)) l ->
  exists images,
    mapM imageInfo l w = (Normal images, w)
    /\ ImageInfo.filename <$> images = l
    /\ Forall (fun i => exists bytes,
                 uploads w !! ImageInfo.filename i = Some bytes
                 /\ ImageInfo.size i = Z.of_nat (length bytes)) images.
Proof.
  induction 1 as [ | name l [bytes Hname] Hl (images & Hrun & Hnames & Hsz) ].
  - exists []. repeat split; constructor.
  - eexists (_ :: images). simpl mapM. unfold imageInfo at 1. io_unfold.
    simpl dir_files. rewrite Hname, Hrun. split; [ reflexivity | ].
    split; [ now rewrite fmap_cons, Hnames | ].
    constructor; [ | done ]. exists bytes. now split.
Qed.

Lemma mapM_certificateInfo (l : list string) (w : World) :
  Forall (fun name => is_Some (certificates w !! name)) l ->
  exists certs,
    mapM certificateInfo l w = (Normal certs, tick (2 * length l) w)
    /\ CertificateInfo.filename <$> certs = l
    /\ Forall (fun c => exists bytes n,
                 certificates w !! CertificateInfo.filename c = Some bytes
                 /\ CertificateInfo.size c = Z.of_nat (length bytes)
                 /\ CertificateInfo.expirationDate c = clock w n + year_ms
                 /\ CertificateInfo.status c =
                      classify (clock w n + year_ms) (clock w (S n))) certs.
Proof.
  intros Hl. revert w Hl.
  induction l as [ | name l IH ]; intros w Hl.
  - exists []. rewrite tick_0. repeat split; constructor.
  - inversion Hl as [ | ? ? [bytes Hname] Hrest ]; subst.
    destruct (IH (tick 2 w) Hrest) as (certs & Hrun & Hnames & Hall).
    eexists (_ :: certs). simpl mapM. unfold certificateInfo at 1.
    io_unfold. simpl dir_files. rewrite Hname, tick_tick.
    change (1 + 1)%nat with 2%nat. rewrite Hrun, tick_tick.
    replace (2 * length l + 2)%nat with (2 * length (name :: l))%nat
      by (simpl; lia).
    split; [ reflexivity | ].
    split; [ now rewrite fmap_cons, Hnames | ].
    constructor; [ exists bytes, (ticks w); now repeat split | exact Hall ].
Qed.

Lemma readdir_filter_stored (m : gmap string (list Byte.byte))
    (f : string -> bool) :
  Forall (fun name => is_Some (m !! name)) (List.filter f (map_to_list m).*1).
Proof.
  apply Forall_forall. intros name Hin.
  apply elem_of_List_filter in Hin as [Hin _].
  now apply elem_of_readdir.
Qed.


Lemma get_images_run (w : World) :
  exists images,
    get_images w =
      (Normal {| code := 200;
                 payload := ImagesBody images (Z.of_nat (length images)) |}, w)
    /\ ImageInfo.filename <$> images =
         List.filter isImageFile (map_to_list (uploads w)).*1
    /\ Forall (fun i => exists bytes,
                 uploads w !! ImageInfo.filename i = Some bytes
                 /\ ImageInfo.size i = Z.of_nat (length bytes)) images.
Proof.
  destruct (mapM_imageInfo _ w (readdir_filter_stored (uploads w) isImageFile))
    as (images & Hrun & Hnames & Hsz).
  exists images. unfold get_images. io_unfold. simpl dir_files.
  now rewrite Hrun.
Qed.

Lemma get_certificates_run (w : World) :
  exists certs,
    get_certificates w =
      (Normal {| code := 200;
                 payload := CertificatesBody certs (Z.of_nat (length certs)) |},
       tick (2 * length certs) w)
    /\ CertificateInfo.filename <$> certs =
         List.filter isCertificateFile (map_to_list (certificates w)).*1
    /\ Forall (fun c => exists bytes n,
                 certificates w !! CertificateInfo.filename c = Some bytes
                 /\ CertificateInfo.size c = Z.of_nat (length bytes)
                 /\ CertificateInfo.expirationDate c = clock w n + year_ms
                 /\ CertificateInfo.status c =
                      classify (clock w n + year_ms) (clock w (S n))) certs.
Proof.
  destruct (mapM_certificateInfo _ w
              (readdir_filter_stored (certificates w) isCertificateFile))
    as (certs & Hrun & Hnames & Hall).
  exists certs. unfold get_certificates. io_unfold. simpl dir_files.
  rewrite Hrun. rewrite <- Hnames at 1. rewrite length_fmap.
  now repeat split.
Qed.


(** ** The mocked expiration date of the certificate listing *)




(** ** What the two ingest handlers do, branch by branch *)

Lemma lookup_write_file (d : Dir) (name : string) (bytes : list Byte.byte)
    (w : World) :
  dir_files d (write_file d name bytes w) !! name = Some bytes.
Proof. destruct d; simpl; apply lookup_insert_eq. Qed.

Lemma post_upload_not_multipart (w : World) :
  post_upload NotMultipart w =
    (Normal (error_reply 500 "Erro interno do servidor"
               "Ocorreu um erro ao processar o upload da imagem"), w).
Proof. reflexivity. Qed.

Lemma post_upload_no_file (parts : list Part) (w : World) :
  first_file parts = None ->
  post_upload (Multipart parts) w =
    (Normal (error_reply 400 "Arquivo não encontrado"
               "Nenhum arquivo foi enviado na requisição"), w).
Proof. intros Hnone. unfold post_upload. io_unfold. now rewrite Hnone. Qed.

Lemma post_upload_invalid_type (parts : list Part) (data : MultipartFile)
    (w : World) :
  first_file parts = Some data ->
  mimetype data ∉ allowedTypes ->
  post_upload (Multipart parts) w =
    (Normal (error_reply 400 "Tipo de arquivo inválido"
               "Apenas arquivos JPG, PNG e GIF são permitidos"), w).
Proof.
  intros Hfile Hmime. unfold post_upload. io_unfold. rewrite Hfile.
  unfold Path.includes. now rewrite bool_decide_eq_false_2.
Qed.

Lemma post_upload_accepted (parts : list Part) (data : MultipartFile)
    (w : World) :
  first_file parts = Some data ->
  mimetype data ∈ allowedTypes ->
  let uniqueFilename :=
    imageFilename (Uuid.stringify (rng w (draws w)))
                  (Path.extname (filename data)) in
  post_upload (Multipart parts) w =
    (Normal
       (if aborted data then
          error_reply 500 "Erro interno do servidor"
            "Ocorreu um erro ao processar o upload da imagem"
        else
          {| code := 200;
             payload := UploadBody
               {| UploadResponse.success := true;
                  UploadResponse.message := "Imagem enviada com sucesso";
                  UploadResponse.filename := uniqueFilename;
                  UploadResponse.originalName := filename data;
                  UploadResponse.size :=
                    Z.of_nat (length (limited (sent data)));
                  UploadResponse.mimetype := mimetype data;
                  UploadResponse.url :=
                    "http://localhost:3000/uploads/" +:+ uniqueFilename |} |}),
     write_file uploadsDir uniqueFilename (limited (sent data)) (drawn 1 w)).
Proof.
  intros Hfile Hmime name. unfold post_upload. io_unfold. rewrite Hfile.
  unfold Path.includes. rewrite bool_decide_eq_true_2 by exact Hmime.
  cbn [negb file_of delivered errored]. fold name.
  destruct (aborted data); [ reflexivity | ].
  now rewrite lookup_write_file.
Qed.

Lemma post_upload_certificate_not_multipart (w : World) :
  post_upload_certificate NotMultipart w =
    (Normal (error_reply 500 "Erro interno do servidor"
               "Ocorreu um erro ao processar o upload do certificado"), w).
Proof. reflexivity. Qed.

Lemma post_upload_certificate_no_file (parts : list Part) (password : string)
    (w : World) :
  collect_parts parts = (None, password) ->
  post_upload_certificate (Multipart parts) w =
    (Normal (error_reply 400 "Certificado não encontrado"
               "Nenhum arquivo de certificado foi enviado na requisição"), w).
Proof.
  intros Hparts. unfold post_upload_certificate. io_unfold.
  now rewrite Hparts.
Qed.

Lemma post_upload_certificate_no_password (parts : list Part)
    (data : MultipartFile) (w : World) :
  collect_parts parts = (Some data, "") ->
  post_upload_certificate (Multipart parts) w =
    (Normal (error_reply 400 "Senha obrigatória"
               "A senha do certificado é obrigatória"), w).
Proof.
  intros Hparts. unfold post_upload_certificate. io_unfold.
  now rewrite Hparts.
Qed.

Lemma post_upload_certificate_invalid_type (parts : list Part)
    (data : MultipartFile) (password : string) (w : World) :
  collect_parts parts = (Some data, password) ->
  password <> "" ->
  Path.toLowerCase (Path.extname (filename data)) ∉ allowedExtensions ->
  post_upload_certificate (Multipart parts) w =
    (Normal (error_reply 400 "Tipo de arquivo inválido"
       "Apenas arquivos .pfx e .p12 são permitidos para certificados digitais"),
     w).
Proof.
  intros Hparts Hpw Hext. unfold post_upload_certificate. io_unfold.
  rewrite Hparts. apply String.eqb_neq in Hpw. rewrite Hpw.
  unfold Path.includes. now rewrite bool_decide_eq_false_2.
Qed.

Lemma post_upload_certificate_too_large (parts : list Part)
    (data : MultipartFile) (password : string) (w : World) :
  collect_parts parts = (Some data, password) ->
  password <> "" ->
  Path.toLowerCase (Path.extname (filename data)) ∈ allowedExtensions ->
  maxSize < buffered data ->
  post_upload_certificate (Multipart parts) w =
    (Normal (error_reply 400 "Arquivo muito grande"
               "O certificado deve ter no máximo 5MB"), w).
Proof.
  intros Hparts Hpw Hext Hbig. unfold post_upload_certificate. io_unfold.
  rewrite Hparts. apply String.eqb_neq in Hpw. rewrite Hpw.
  unfold Path.includes. rewrite bool_decide_eq_true_2 by exact Hext.
  cbn [negb file_of readableLength].
  now rewrite (proj2 (Z.ltb_lt _ _) Hbig).
Qed.

Lemma post_upload_certificate_accepted (parts : list Part)
    (data : MultipartFile) (password : string) (w : World) :
  collect_parts parts = (Some data, password) ->
  password <> "" ->
  Path.toLowerCase (Path.extname (filename data)) ∈ allowedExtensions ->
  buffered data <= maxSize ->
  let uniqueFilename :=
    certificateFilename (Uuid.stringify (rng w (draws w)))
      (Path.toLowerCase (Path.extname (filename data))) in
  let w' :=
    write_file certificatesDir uniqueFilename (limited (sent data))
               (drawn 1 w) in
  post_upload_certificate (Multipart parts) w =
    if aborted data then
      (Normal (error_reply 500 "Erro interno do servidor"
                 "Ocorreu um erro ao processar o upload do certificado"), w')
    else
      (Normal
         {| code := 200;
            payload := CertificateUploadBody
              {| CertificateUploadResponse.success := true;
                 CertificateUploadResponse.message :=
                   "Certificado digital enviado e validado com sucesso";
                 CertificateUploadResponse.filename := uniqueFilename;
                 CertificateUploadResponse.originalName := filename data;
                 CertificateUploadResponse.size :=
                   Z.of_nat (length (limited (sent data)));
                 CertificateUploadResponse.mimetype := mimetype data;
                 CertificateUploadResponse.expirationDate :=
                   clock w (ticks w) + year_ms;
                 CertificateUploadResponse.subject :=
                   "CN=Empresa Exemplo, O=Empresa Exemplo LTDA";
                 CertificateUploadResponse.issuer :=
                   "CN=AC Exemplo, O=Autoridade Certificadora Exemplo" |} |},
       tick 1 w').
Proof.
  intros Hparts Hpw Hext Hsmall name w'.
  unfold post_upload_certificate. io_unfold.
  rewrite Hparts. apply String.eqb_neq in Hpw. rewrite Hpw.
  unfold Path.includes. rewrite bool_decide_eq_true_2 by exact Hext.
  cbn [negb file_of readableLength delivered errored].
  rewrite (proj2 (Z.ltb_ge _ _) Hsmall). fold name. fold w'.
  destruct (aborted data); [ reflexivity | ].
  unfold w'. now rewrite lookup_write_file.
Qed.

(** ** The multipart loop of the certificate ingest *)





(** ** Type validation *)




(** ** Deletion *)

Lemma delete_image_run (filename : string) (w : World) :
  delete_image filename w =
    match uploads w !! filename with
    | None =>
        (Normal (error_reply 404 "Arquivo não encontrado"
                   "A imagem especificada não existe"), w)
    | Some _ =>
        (Normal {| code := 200;
                   payload := DeletedBody true "Imagem deletada com sucesso" |},
         set_dir_files uploadsDir (delete filename (uploads w)) w)
    end.
Proof.
  unfold delete_image. io_unfold. cbn [dir_files].
  destruct (uploads w !! filename) as [bytes | ] eqn:Hfile.
  - rewrite bool_decide_eq_true_2 by (now exists bytes). cbn [negb].
    now rewrite Hfile.
  - rewrite bool_decide_eq_false_2 by (intros [? ?]; discriminate).
    reflexivity.
Qed.

Lemma delete_certificate_run (filename : string) (w : World) :
  delete_certificate filename w =
    match certificates w !! filename with
    | None =>
        (Normal (error_reply 404 "Certificado não encontrado"
                   "O certificado especificado não existe"), w)
    | Some _ =>
        if isCertificateFile filename then
          (Normal {| code := 200;
                     payload := DeletedBody true
                                  "Certificado digital deletado com sucesso" |},
           set_dir_files certificatesDir
                         (delete filename (certificates w)) w)
        else
          (Normal (error_reply 400 "Arquivo inválido"
             "Apenas certificados .pfx e .p12 podem ser deletados por esta rota"),
           w)
    end.
Proof.
  unfold delete_certificate, isCertificateFile. io_unfold. cbn [dir_files].
  destruct (certificates w !! filename) as [bytes | ] eqn:Hfile.
  - rewrite bool_decide_eq_true_2 by (now exists bytes). cbn [negb].
    destruct (Path.includes _ _); cbn [negb]; [ | reflexivity ].
    now rewrite Hfile.
  - rewrite bool_decide_eq_false_2 by (intros [? ?]; discriminate).
    reflexivity.
Qed.

(** C5 on the code.  A text file that entered the image directory through
    the image ingest (its MIME type said image/png) is deleted by
    DELETE /images although its extension is outside the image whitelist:
    the image route has no category check.  The certificate route has one:
    it answers 400 "Arquivo inválido" for a stored name outside .pfx/.p12
    and keeps the file. *)
Theorem delete_image_has_no_category_check :
  let stored := "2a2a2a2a-2a2a-2a2a-2a2a-2a2a2a2a2a00.txt" in
  let w := (post_upload (Multipart [FilePart text_as_png]) empty_world).2 in
  uploads w !! stored = Some [Byte.x68; Byte.x69]
  /\ (Path.toLowerCase (Path.extname stored)
        ∉ [".jpg"; ".jpeg"; ".png"; ".gif"])
  /\ (delete_image stored w).1 =
       Normal {| code := 200;
                 payload := DeletedBody true "Imagem deletada com sucesso" |}
  /\ uploads (delete_image stored w).2 !! stored = None
  /\ delete_certificate "readme.txt" stray_world =
       (Normal (error_reply 400 "Arquivo inválido"
          "Apenas certificados .pfx e .p12 podem ser deletados por esta rota"),
        stray_world).
Proof.
  cbv zeta.
  split; [ vm_compute; reflexivity | ].
  split; [ compute_done | ].
  split; [ vm_compute; reflexivity | ].
  split; [ vm_compute; reflexivity | ].
  rewrite delete_certificate_run.
  replace (certificates stray_world !! "readme.txt")
    with (Some [Byte.x68; Byte.x69]) by (vm_compute; reflexivity).
  replace (isCertificateFile "readme.txt") with false
    by (vm_compute; reflexivity).
  reflexivity.
Qed.

(** ** Error replies *)

Ltac in_catalog :=
  solve [ repeat first [ apply list_elem_of_here | apply list_elem_of_further ] ].

(** Every request is answered: no handler lets an exception escape, and the
    answer is either one of the route's written error replies or a 200
    reply that is no error. *)
Lemma handle_outcome (req : Request) (w : World) :
  exists reply w',
    handle req w = (Normal reply, w')
    /\ (reply ∈ error_replies req
        \/ (code reply = 200 /\ error_tag reply = None)).
Proof.
  destruct req as [body | | filename | body | | filename]; simpl handle.
  - destruct body as [ | parts ].
    { eexists _, _. split; [ apply post_upload_not_multipart | ].
      left. in_catalog. }
    destruct (first_file parts) as [data | ] eqn:Hfile.
    + destruct (decide (mimetype data ∈ allowedTypes)) as [Hmime | Hmime].
      * eexists _, _.
        split; [ apply (post_upload_accepted parts data w Hfile Hmime) | ].
        destruct (aborted data); [ left; in_catalog | right; now split ].
      * eexists _, _.
        split; [ apply (post_upload_invalid_type parts data w Hfile Hmime) | ].
        left. in_catalog.
    + eexists _, _. split; [ apply (post_upload_no_file parts w Hfile) | ].
      left. in_catalog.
  - destruct (get_images_run w) as (images & Hrun & _).
    eexists _, _. split; [ exact Hrun | ]. right. now split.
  - rewrite delete_image_run.
    destruct (uploads w !! filename); eexists _, _;
      (split; [ reflexivity | ]); [ right; now split | left; in_catalog ].
  - destruct body as [ | parts ].
    { eexists _, _. split; [ apply post_upload_certificate_not_multipart | ].
      left. in_catalog. }
    destruct (collect_parts parts) as [[data | ] password] eqn:Hparts.
    + destruct (decide (password = "")) as [-> | Hpw].
      { eexists _, _.
        split; [ apply (post_upload_certificate_no_password _ _ w Hparts) | ].
        left. in_catalog. }
      destruct (decide (Path.toLowerCase (Path.extname (filename data))
                          ∈ allowedExtensions)) as [Hext | Hext].
      * destruct (Z.lt_ge_cases maxSize (buffered data)) as [Hbig | Hsmall].
        { eexists _, _.
          split; [ apply (post_upload_certificate_too_large
                            _ _ _ w Hparts Hpw Hext Hbig) | ].
          left. in_catalog. }
        pose proof (post_upload_certificate_accepted
                      _ _ _ w Hparts Hpw Hext Hsmall) as Hrun.
        cbv zeta in Hrun. rewrite Hrun.
        destruct (aborted data); eexists _, _;
          (split; [ reflexivity | ]);
          [ left; in_catalog | right; now split ].
      * eexists _, _.
        split; [ apply (post_upload_certificate_invalid_type
                          _ _ _ w Hparts Hpw Hext) | ].
        left. in_catalog.
    + eexists _, _.
      split; [ apply (post_upload_certificate_no_file _ _ w Hparts) | ].
      left. in_catalog.
  - destruct (get_certificates_run w) as (certs & Hrun & _).
    eexists _, _. split; [ exact Hrun | ]. right. now split.
  - rewrite delete_certificate_run.
    destruct (certificates w !! filename);
      [ destruct (isCertificateFile filename) | ];
      eexists _, _; (split; [ reflexivity | ]);
      [ right; now split | left; in_catalog | left; in_catalog ].
Qed.






(** ** Unique names *)

Lemma hexDigit_inj (a b : N) :
  (a < 16)%N -> (b < 16)%N -> Uuid.hexDigit a = Uuid.hexDigit b -> a = b.
Proof.
  intros Ha Hb Heq. unfold Uuid.hexDigit in Heq.
  assert (List.NoDup (list_ascii_of_string "0123456789abcdef")) as Hnodup
    by (apply NoDup_ListNoDup; compute_done).
  apply N2Nat.inj.
  apply (proj1 (List.NoDup_nth _ "0"%char) Hnodup); [ simpl | simpl | exact Heq ];
    lia.
Qed.

Lemma hexDigit_not_r (n : N) : Uuid.hexDigit n <> "r"%char.
Proof.
  unfold Uuid.hexDigit.
  destruct (nth_in_or_default (N.to_nat n)
              (list_ascii_of_string "0123456789abcdef") "0"%char)
    as [Hin | ->]; [ | discriminate ].
  intros Heq. rewrite Heq in Hin. simpl in Hin.
  repeat (destruct Hin as [Hin | Hin]; [ discriminate | ]). exact Hin.
Qed.

Lemma byteToHex_inj (b1 b2 : Byte.byte) :
  Uuid.byteToHex b1 = Uuid.byteToHex b2 -> b1 = b2.
Proof.
  unfold Uuid.byteToHex. intros Heq. injection Heq as Hhi Hlo.
  pose proof (Byte.to_N_bounded b1) as Hb1.
  pose proof (Byte.to_N_bounded b2) as Hb2.
  assert (forall n, (n <= 255)%N -> (N.shiftr n 4 < 16)%N /\ (N.land n 15 < 16)%N
                    /\ n = (16 * N.shiftr n 4 + N.land n 15)%N) as Hsplit.
  { intros n Hn. rewrite N.shiftr_div_pow2.
    change 15%N with (N.ones 4). rewrite N.land_ones.
    change (2 ^ 4)%N with 16%N.
    pose proof (N.div_mod n 16 ltac:(lia)).
    pose proof (N.mod_upper_bound n 16 ltac:(lia)).
    assert (n / 16 < 16)%N by (apply N.Div0.div_lt_upper_bound; lia).
    lia. }
  destruct (Hsplit _ Hb1) as (Hh1 & Hl1 & He1).
  destruct (Hsplit _ Hb2) as (Hh2 & Hl2 & He2).
  apply hexDigit_inj in Hhi; [ | assumption .. ].
  apply hexDigit_inj in Hlo; [ | assumption .. ].
  assert (Byte.to_N b1 = Byte.to_N b2) as HN by congruence.
  pose proof (Byte.of_to_N b1) as H1. pose proof (Byte.of_to_N b2) as H2.
  rewrite HN in H1. congruence.
Qed.

Lemma byteToHex_shape (b : Byte.byte) :
  exists hi lo, Uuid.byteToHex b = String (Uuid.hexDigit hi)
                                     (String (Uuid.hexDigit lo) "").
Proof. unfold Uuid.byteToHex. now eexists _, _. Qed.

Lemma byteToHex_append_inj (b1 b2 : Byte.byte) (s1 s2 : string) :
  Uuid.byteToHex b1 +:+ s1 = Uuid.byteToHex b2 +:+ s2 -> b1 = b2 /\ s1 = s2.
Proof.
  intros Heq.
  assert (Uuid.byteToHex b1 = Uuid.byteToHex b2 /\ s1 = s2) as [Hb Hs].
  { unfold Uuid.byteToHex in *. simpl in Heq. injection Heq as Hhi Hlo Hs.
    now rewrite Hhi, Hlo. }
  split; [ now apply byteToHex_inj | exact Hs ].
Qed.

Lemma append_cons (c : ascii) (s t : string) :
  String c s +:+ t = String c (s +:+ t).
Proof. reflexivity. Qed.

Lemma append_nil (t : string) : "" +:+ t = t.
Proof. reflexivity. Qed.

Ltac string_norm := rewrite ?append_cons, ?append_nil.
Ltac string_norm_in H := rewrite ?append_cons, ?append_nil in H.

Lemma dash_append_inj (s1 s2 : string) : "-" +:+ s1 = "-" +:+ s2 -> s1 = s2.
Proof. string_norm. now intros [= ->]. Qed.

Lemma stringify_nth (arr1 arr2 : list Byte.byte) :
  Uuid.stringify arr1 = Uuid.stringify arr2 ->
  forall k, (k < 16)%nat -> nth k arr1 Byte.x00 = nth k arr2 Byte.x00.
Proof.
  unfold Uuid.stringify, Uuid.hex. intros H.
  repeat match type of H with
         | Uuid.byteToHex _ +:+ _ = Uuid.byteToHex _ +:+ _ =>
             apply byteToHex_append_inj in H as [? H]
         | "-" +:+ _ = "-" +:+ _ => apply dash_append_inj in H
         end.
  apply byteToHex_inj in H.
  intros k Hk. do 16 (destruct k as [ | k ]; [ assumption | ]). lia.
Qed.

Lemma stringify_inj (arr1 arr2 : list Byte.byte) :
  length arr1 = 16%nat -> length arr2 = 16%nat ->
  Uuid.stringify arr1 = Uuid.stringify arr2 -> arr1 = arr2.
Proof.
  intros Hlen1 Hlen2 Heq.
  apply (nth_ext _ _ Byte.x00 Byte.x00); [ congruence | ].
  intros k Hk. apply stringify_nth; [ exact Heq | lia ].
Qed.

Lemma stringify_length (arr : list Byte.byte) :
  String.length (Uuid.stringify arr) = 36%nat.
Proof. reflexivity. Qed.

Lemma append_inj_length (s1 s2 t1 t2 : string) :
  String.length s1 = String.length s2 ->
  s1 +:+ t1 = s2 +:+ t2 -> s1 = s2 /\ t1 = t2.
Proof.
  revert s2. induction s1 as [ | c s1 IH ]; intros [ | c' s2 ] Hlen Heq;
    try discriminate.
  - now split.
  - simpl in Hlen. string_norm_in Heq. injection Heq as -> Heq.
    destruct (IH s2 ltac:(lia) Heq) as [-> ->]. now split.
Qed.

Lemma imageFilename_inj (arr1 arr2 : list Byte.byte) (ext1 ext2 : string) :
  length arr1 = 16%nat -> length arr2 = 16%nat ->
  imageFilename (Uuid.stringify arr1) ext1
    = imageFilename (Uuid.stringify arr2) ext2 ->
  arr1 = arr2.
Proof.
  unfold imageFilename. intros Hlen1 Hlen2 Heq.
  apply append_inj_length in Heq as [Heq _];
    [ now apply stringify_inj | now rewrite !stringify_length ].
Qed.

Lemma certificateFilename_inj (arr1 arr2 : list Byte.byte)
    (ext1 ext2 : string) :
  length arr1 = 16%nat -> length arr2 = 16%nat ->
  certificateFilename (Uuid.stringify arr1) ext1
    = certificateFilename (Uuid.stringify arr2) ext2 ->
  arr1 = arr2.
Proof.
  unfold certificateFilename. intros Hlen1 Hlen2 Heq.
  apply append_inj_length in Heq as [_ Heq]; [ | reflexivity ].
  now apply (imageFilename_inj arr1 arr2 ext1 ext2).
Qed.

(** The third character of an image name is a hexadecimal digit, that of a
    certificate name is the [r] of [cert_]. *)
Lemma image_name_third_char (arr : list Byte.byte) (ext : string) :
  exists c1 c2 n rest,
    imageFilename (Uuid.stringify arr) ext
      = String c1 (String c2 (String (Uuid.hexDigit n) rest)).
Proof.
  unfold imageFilename, Uuid.stringify, Uuid.hex, Uuid.byteToHex.
  string_norm. now eexists _, _, _, _.
Qed.

Lemma certificate_name_not_image_name (arr arr' : list Byte.byte)
    (ext ext' : string) :
  certificateFilename (Uuid.stringify arr) ext
    <> imageFilename (Uuid.stringify arr') ext'.
Proof.
  destruct (image_name_third_char arr' ext') as (c1 & c2 & n & rest & ->).
  unfold certificateFilename. string_norm. intros [= _ _ Hr].
  now apply (hexDigit_not_r n).
Qed.

Lemma prefix_append (s t : string) : String.prefix s (s +:+ t) = true.
Proof.
  induction s as [ | c s IH ]; [ now destruct t | ].
  rewrite append_cons. cbn [String.prefix].
  now destruct (ascii_dec c c).
Qed.

Lemma certificate_name_prefix (id ext : string) :
  String.prefix "cert_" (certificateFilename id ext) = true.
Proof. apply prefix_append. Qed.

Lemma image_name_prefix (arr : list Byte.byte) (ext : string) :
  String.prefix "cert_" (imageFilename (Uuid.stringify arr) ext) = false.
Proof.
  destruct (image_name_third_char arr ext) as (c1 & c2 & n & rest & ->).
  destruct (String.prefix _ _) eqn:Hprefix; [ | reflexivity ].
  apply String.prefix_correct in Hprefix. simpl in Hprefix.
  injection Hprefix as _ _ Hr. now apply hexDigit_not_r in Hr.
Qed.

(** *** Names over a sequence of requests *)

(** A handler leaves the identifier source alone and draws at most one
    identifier; when it reports a stored name it has drawn exactly one, and
    the name is built from it. *)
Lemma handle_step (req : Request) (w w' : World) (reply : Reply) :
  handle req w = (Normal reply, w') ->
  rng w' = rng w
  /\ (draws w <= draws w' <= S (draws w))%nat
  /\ forall name, stored_name reply = Some name ->
       draws w' = S (draws w)
       /\ exists ext,
            name = imageFilename (Uuid.stringify (rng w (draws w))) ext
            \/ name = certificateFilename
                        (Uuid.stringify (rng w (draws w))) ext.
Proof.
  destruct req as [body | | filename | body | | filename]; simpl handle.
  - destruct body as [ | parts ].
    { rewrite post_upload_not_multipart. intros [= <- <-].
      repeat split; (lia || discriminate). }
    destruct (first_file parts) as [data | ] eqn:Hfile.
    + destruct (decide (mimetype data ∈ allowedTypes)) as [Hmime | Hmime].
      * pose proof (post_upload_accepted parts data w Hfile Hmime) as Hrun.
        cbv zeta in Hrun. rewrite Hrun. intros [= <- <-].
        split; [ reflexivity | ]. split; [ simpl; lia | ].
        destruct (aborted data); [ discriminate | ].
        intros name [= <-]. split; [ reflexivity | ]. eexists. now left.
      * rewrite (post_upload_invalid_type parts data w Hfile Hmime).
        intros [= <- <-]. repeat split; (lia || discriminate).
    + rewrite (post_upload_no_file parts w Hfile). intros [= <- <-].
      repeat split; (lia || discriminate).
  - destruct (get_images_run w) as (images & -> & _). intros [= <- <-].
    repeat split; (lia || discriminate).
  - rewrite delete_image_run.
    destruct (uploads w !! filename); intros [= <- <-];
      repeat split; (simpl; lia || discriminate).
  - destruct body as [ | parts ].
    { rewrite post_upload_certificate_not_multipart. intros [= <- <-].
      repeat split; (lia || discriminate). }
    destruct (collect_parts parts) as [[data | ] password] eqn:Hparts.
    + destruct (decide (password = "")) as [-> | Hpw].
      { rewrite (post_upload_certificate_no_password _ _ w Hparts).
        intros [= <- <-]. repeat split; (lia || discriminate). }
      destruct (decide (Path.toLowerCase (Path.extname (filename data))
                          ∈ allowedExtensions)) as [Hext | Hext].
      * destruct (Z.lt_ge_cases maxSize (buffered data)) as [Hbig | Hsmall].
        { rewrite (post_upload_certificate_too_large
                     _ _ _ w Hparts Hpw Hext Hbig).
          intros [= <- <-]. repeat split; (lia || discriminate). }
        pose proof (post_upload_certificate_accepted
                      _ _ _ w Hparts Hpw Hext Hsmall) as Hrun.
        cbv zeta in Hrun. rewrite Hrun.
        destruct (aborted data); intros [= <- <-];
          (split; [ reflexivity | ]); (split; [ simpl; lia | ]).
        { discriminate. }
        intros name [= <-]. split; [ reflexivity | ]. eexists. now right.
      * rewrite (post_upload_certificate_invalid_type
                   _ _ _ w Hparts Hpw Hext).
        intros [= <- <-]. repeat split; (lia || discriminate).
    + rewrite (post_upload_certificate_no_file _ _ w Hparts).
      intros [= <- <-]. repeat split; (lia || discriminate).
  - destruct (get_certificates_run w) as (certs & -> & _). intros [= <- <-].
    repeat split; (simpl; lia || discriminate).
  - rewrite delete_certificate_run.
    destruct (certificates w !! filename);
      [ destruct (isCertificateFile filename) | ];
      intros [= <- <-]; repeat split; (simpl; lia || discriminate).
Qed.

Lemma serve_cons (req : Request) (rest : list Request) (w : World) :
  exists reply w',
    handle req w = (Normal reply, w')
    /\ serve (req :: rest) w = (reply :: (serve rest w').1, (serve rest w').2).
Proof.
  destruct (handle_outcome req w) as (reply & w' & Hrun & _).
  exists reply, w'. split; [ exact Hrun | ].
  simpl. rewrite Hrun. now destruct (serve rest w').
Qed.

(** Every stored name reported while serving [reqs] is built from an
    identifier drawn during the run. *)
Lemma serve_indices (reqs : list Request) (w : World) :
  rng (serve reqs w).2 = rng w
  /\ (draws w <= draws (serve reqs w).2 <= draws w + length reqs)%nat
  /\ forall name, name ∈ omap stored_name (serve reqs w).1 ->
       exists k ext,
         (draws w <= k < draws (serve reqs w).2)%nat
         /\ (name = imageFilename (Uuid.stringify (rng w k)) ext
             \/ name = certificateFilename (Uuid.stringify (rng w k)) ext).
Proof.
  revert w. induction reqs as [ | req rest IH ]; intros w.
  - simpl. repeat split; try lia. intros name Hin. inversion Hin.
  - destruct (serve_cons req rest w) as (reply & w1 & Hrun & ->).
    destruct (handle_step req w w1 reply Hrun) as (Hrng & Hdraws & Hname).
    destruct (IH w1) as (IHrng & IHdraws & IHnames).
    cbn [fst snd length].
    split; [ congruence | ]. split; [ lia | ].
    intros name Hin. cbn [omap list_omap] in Hin.
    destruct (stored_name reply) as [name0 | ] eqn:Hstored.
    + apply elem_of_cons in Hin as [-> | Hin].
      * destruct (Hname name0 eq_refl) as (Hnext & ext & Hshape).
        exists (draws w), ext. split; [ lia | exact Hshape ].
      * destruct (IHnames name Hin) as (k & ext & Hk & Hshape).
        exists k, ext. rewrite <- Hrng. split; [ lia | exact Hshape ].
    + destruct (IHnames name Hin) as (k & ext & Hk & Hshape).
      exists k, ext. rewrite <- Hrng. split; [ lia | exact Hshape ].
Qed.

Lemma same_name_same_id (arr1 arr2 : list Byte.byte) (ext1 ext2 name : string) :
  length arr1 = 16%nat -> length arr2 = 16%nat ->
  name = imageFilename (Uuid.stringify arr1) ext1
  \/ name = certificateFilename (Uuid.stringify arr1) ext1 ->
  name = imageFilename (Uuid.stringify arr2) ext2
  \/ name = certificateFilename (Uuid.stringify arr2) ext2 ->
  arr1 = arr2.
Proof.
  intros Hlen1 Hlen2 [-> | ->] [Heq | Heq].
  - now apply (imageFilename_inj arr1 arr2 ext1 ext2).
  - symmetry in Heq. now apply certificate_name_not_image_name in Heq.
  - now apply certificate_name_not_image_name in Heq.
  - now apply (certificateFilename_inj arr1 arr2 ext1 ext2).
Qed.

Lemma serve_names_NoDup (reqs : list Request) (w : World) :
  (forall k, (draws w <= k < draws w + length reqs)%nat ->
             length (rng w k) = 16%nat) ->
  (forall j k, (draws w <= j < k)%nat -> (k < draws w + length reqs)%nat ->
               rng w j <> rng w k) ->
  NoDup (omap stored_name (serve reqs w).1).
Proof.
  revert w. induction reqs as [ | req rest IH ]; intros w Hlen Hdistinct.
  - constructor.
  - destruct (serve_cons req rest w) as (reply & w1 & Hrun & ->).
    destruct (handle_step req w w1 reply Hrun) as (Hrng & Hdraws & Hname).
    cbn [fst length] in *. cbn [omap list_omap].
    assert (NoDup (omap stored_name (serve rest w1).1)) as Htail.
    { apply IH.
      - intros k Hk. rewrite Hrng. apply Hlen. lia.
      - intros j k Hj Hk. rewrite Hrng. apply Hdistinct; lia. }
    destruct (stored_name reply) as [name | ] eqn:Hstored; [ | exact Htail ].
    constructor; [ | exact Htail ].
    intros Hin.
    destruct (Hname name eq_refl) as (Hnext & ext & Hshape).
    destruct (serve_indices rest w1) as (_ & Hbound & Hnames).
    destruct (Hnames name Hin) as (k & ext' & Hk & Hshape').
    rewrite Hrng in Hshape'.
    apply (Hdistinct (draws w) k); [ lia | lia | ].
    apply (same_name_same_id _ _ ext ext' name);
      [ apply Hlen; lia | apply Hlen; lia | exact Hshape | exact Hshape' ].
Qed.

(** C7. Stored names are injective in the identifier: two distinct 16-byte
    (128-bit) identifiers give distinct image names and distinct certificate
    names, whatever the extensions.  Every certificate name starts with
    [cert_] and no image name does, so no certificate name is an image
    name.  Over any sequence of requests, deletions included, whose drawn
    identifiers are pairwise distinct, no stored name is reported twice. *)
Theorem stored_names_never_collide :
  (forall (id1 id2 : list Byte.byte) (ext1 ext2 : string),
      length id1 = 16%nat -> length id2 = 16%nat -> id1 <> id2 ->
      imageFilename (Uuid.stringify id1) ext1
        <> imageFilename (Uuid.stringify id2) ext2
      /\ certificateFilename (Uuid.stringify id1) ext1
           <> certificateFilename (Uuid.stringify id2) ext2)
  /\ (forall (id id' : list Byte.byte) (ext ext' : string),
        String.prefix "cert_" (certificateFilename (Uuid.stringify id) ext)
          = true
        /\ String.prefix "cert_" (imageFilename (Uuid.stringify id') ext')
             = false
        /\ certificateFilename (Uuid.stringify id) ext
             <> imageFilename (Uuid.stringify id') ext')
  /\ (forall (reqs : list Request) (w : World),
        (forall k, (draws w <= k < draws w + length reqs)%nat ->
                   length (rng w k) = 16%nat) ->
        (forall j k, (draws w <= j < k)%nat ->
                     (k < draws w + length reqs)%nat ->
                     rng w j <> rng w k) ->
        NoDup (omap stored_name (serve reqs w).1)).
Proof.
  split; [ | split ].
  - intros id1 id2 ext1 ext2 Hlen1 Hlen2 Hne. split; intros Heq; apply Hne.
    + now apply (imageFilename_inj id1 id2 ext1 ext2).
    + now apply (certificateFilename_inj id1 id2 ext1 ext2).
  - intros id id' ext ext'.
    split; [ apply certificate_name_prefix | ].
    split; [ apply image_name_prefix | apply certificate_name_not_image_name ].
  - exact serve_names_NoDup.
Qed.

(** The theorem at an upload, the deletion of the stored file and a second
    upload of the same file. *)
Lemma stored_names_never_collide_witness :
  NoDup (omap stored_name
           (serve [POST_upload (Multipart [FilePart exe_as_png]);
                   DELETE_images "2a2a2a2a-2a2a-2a2a-2a2a-2a2a2a2a2a00.exe";
                   POST_upload (Multipart [FilePart exe_as_png])]
                  empty_world).1)
  /\ imageFilename (Uuid.stringify (sample_id 0)) ".png"
       <> imageFilename (Uuid.stringify (sample_id 1)) ".png".
Proof.
  destruct stored_names_never_collide as (Hinj & _ & Htrace). split.
  - apply Htrace.
    + intros k _. reflexivity.
    + intros j k Hj Hk Heq. unfold empty_world in *. cbn [rng draws length] in *.
      destruct k as [ | [ | [ | k ] ] ]; destruct j as [ | [ | [ | j ] ] ];
        try lia; vm_compute in Heq; discriminate.
  - apply (Hinj (sample_id 0) (sample_id 1)); [ reflexivity .. | ].
    vm_compute. discriminate.
Defined.

Example names_over_delete_and_reupload :
  omap stored_name
    (serve [POST_upload (Multipart [FilePart exe_as_png]);
            DELETE_images "2a2a2a2a-2a2a-2a2a-2a2a-2a2a2a2a2a00.exe";
            POST_upload (Multipart [FilePart exe_as_png])]
           empty_world).1
  = ["2a2a2a2a-2a2a-2a2a-2a2a-2a2a2a2a2a00.exe";
     "2a2a2a2a-2a2a-2a2a-2a2a-2a2a2a2a2a01.exe"].
Proof. vm_compute. reflexivity. Qed.

(** ** Size limit *)







(** ** [path.extname] of a name that ends in a dotted extension *)

Lemma extname_step_plain (i : Z) (c : ascii) (st : Path.ExtnameState) :
  plain c ->
  Path.extname_step i c st =
    (if Path.end_ st =? -1 then
       {| Path.startDot := Path.startDot st;
          Path.startPart := Path.startPart st;
          Path.end_ := i + 1; Path.matchedSlash := false;
          Path.preDotState :=
            if Path.startDot st =? -1 then Path.preDotState st else -1 |}
     else
       {| Path.startDot := Path.startDot st;
          Path.startPart := Path.startPart st;
          Path.end_ := Path.end_ st;
          Path.matchedSlash := Path.matchedSlash st;
          Path.preDotState :=
            if Path.startDot st =? -1 then Path.preDotState st else -1 |},
     false).
Proof.
  intros [Hslash Hdot]. unfold Path.extname_step.
  rewrite (proj2 (Ascii.eqb_neq _ _) Hslash), (proj2 (Ascii.eqb_neq _ _) Hdot).
  destruct st as [sd sp e ms pds]. cbn [Path.end_ Path.startDot
    Path.startPart Path.matchedSlash Path.preDotState].
  destruct (e =? -1); cbn [Path.end_ Path.startDot Path.startPart
    Path.matchedSlash Path.preDotState]; now destruct (sd =? -1).
Qed.

Lemma extname_loop_app (l1 l2 : list ascii) (i : Z) (st : Path.ExtnameState) :
  Forall plain l1 ->
  Path.extname_loop (l1 ++ l2)%list i st =
    Path.extname_loop l2 (i - Z.of_nat (length l1)) (Path.extname_loop l1 i st).
Proof.
  intros Hplain. revert i st.
  induction Hplain as [ | c l1 Hc _ IH ]; intros i st.
  - simpl. f_equal. lia.
  - cbn [app Path.extname_loop]. rewrite (extname_step_plain i c st Hc).
    rewrite IH. f_equal. cbn [length]. lia.
Qed.

(** Once [end_] is set, plain characters can only move [preDotState], and
    only after a dot has been seen. *)
Lemma extname_loop_plain (l : list ascii) (i : Z) (st : Path.ExtnameState) :
  Forall plain l ->
  Path.end_ st <> -1 ->
  Path.extname_loop l i st =
    match l with
    | [] => st
    | _ :: _ =>
        {| Path.startDot := Path.startDot st;
           Path.startPart := Path.startPart st;
           Path.end_ := Path.end_ st;
           Path.matchedSlash := Path.matchedSlash st;
           Path.preDotState :=
             if Path.startDot st =? -1 then Path.preDotState st else -1 |}
    end.
Proof.
  intros Hplain. revert i st.
  induction Hplain as [ | c l Hc Hl IH ]; intros i st Hend; [ reflexivity | ].
  cbn [Path.extname_loop]. rewrite (extname_step_plain i c st Hc).
  rewrite (proj2 (Z.eqb_neq _ _) Hend).
  rewrite IH by exact Hend.
  destruct l as [ | c' l ]; [ reflexivity | ].
  cbn [Path.startDot Path.startPart Path.end_ Path.matchedSlash
       Path.preDotState].
  now destruct (Path.startDot st =? -1).
Qed.

(** Plain characters scanned from the initial state set [end_] to the
    position after the last character. *)
Lemma extname_loop_init (l : list ascii) (i : Z) :
  Forall plain l -> 0 <= i ->
  Path.extname_loop l i Path.extname_init =
    match l with
    | [] => Path.extname_init
    | _ :: _ =>
        {| Path.startDot := -1; Path.startPart := 0; Path.end_ := i + 1;
           Path.matchedSlash := false; Path.preDotState := 0 |}
    end.
Proof.
  intros Hplain Hi. destruct Hplain as [ | c l Hc Hl ]; [ reflexivity | ].
  cbn [Path.extname_loop]. rewrite (extname_step_plain i c _ Hc).
  cbn [Path.extname_init Path.end_ Path.startDot Path.startPart
       Path.preDotState].
  change (-1 =? -1) with true. cbv iota.
  rewrite (extname_loop_plain l (i - 1) _ Hl)
    by (cbn [Path.end_]; lia).
  now destruct l.
Qed.

Lemma extname_step_dot (i : Z) (st : Path.ExtnameState) :
  Path.startDot st = -1 ->
  Path.extname_step i Path.CHAR_DOT st =
    ({| Path.startDot := i; Path.startPart := Path.startPart st;
        Path.end_ := if Path.end_ st =? -1 then i + 1 else Path.end_ st;
        Path.matchedSlash :=
          if Path.end_ st =? -1 then false else Path.matchedSlash st;
        Path.preDotState := Path.preDotState st |}, false).
Proof.
  intros Hdot. unfold Path.extname_step.
  change (Ascii.eqb Path.CHAR_DOT Path.CHAR_FORWARD_SLASH) with false.
  change (Ascii.eqb Path.CHAR_DOT Path.CHAR_DOT) with true. cbv iota.
  destruct st as [sd sp e ms pds]. cbn [Path.startDot] in Hdot. subst sd.
  cbn [Path.end_ Path.startDot Path.startPart Path.matchedSlash
       Path.preDotState].
  destruct (e =? -1); cbn [Path.end_ Path.startDot Path.startPart
    Path.matchedSlash Path.preDotState]; reflexivity.
Qed.

Lemma list_ascii_of_string_append (s t : string) :
  list_ascii_of_string (s +:+ t)
    = (list_ascii_of_string s ++ list_ascii_of_string t)%list.
Proof.
  induction s as [ | c s IH ]; [ reflexivity | ].
  rewrite append_cons. cbn [list_ascii_of_string app]. now rewrite IH.
Qed.

Lemma list_ascii_of_string_length (s : string) :
  length (list_ascii_of_string s) = String.length s.
Proof. induction s as [ | c s IH ]; simpl; congruence. Qed.

Lemma substring_all (t : string) : String.substring 0 (String.length t) t = t.
Proof. induction t as [ | c t IH ]; simpl; congruence. Qed.

Lemma substring_append (s t : string) :
  String.substring (String.length s) (String.length t) (s +:+ t) = t.
Proof.
  induction s as [ | c s IH ]; [ apply substring_all | ].
  rewrite append_cons. exact IH.
Qed.

(** A non-empty plain stem followed by a dot and a plain extension: the
    extension is the dot and what follows it. *)
Lemma extname_stem_ext (stem ext : string) :
  stem <> "" -> plain_string stem -> plain_string ext ->
  Path.extname (stem +:+ String "." ext) = String "." ext.
Proof.
  intros Hstem Hs He. unfold Path.extname. cbv zeta.
  rewrite list_ascii_of_string_append. cbn [list_ascii_of_string].
  rewrite rev_app_distr. cbn [rev]. rewrite <- app_assoc. cbn [app].
  rewrite length_app. cbn [length]. rewrite !length_rev || idtac.
  set (n := length (list_ascii_of_string stem)).
  set (m := length (list_ascii_of_string ext)).
  assert (Forall plain (rev (list_ascii_of_string ext))) as He'
    by (apply Forall_rev; exact He).
  assert (Forall plain (rev (list_ascii_of_string stem))) as Hs'
    by (apply Forall_rev; exact Hs).
  rewrite (extname_loop_app _ _ _ _ He'). rewrite length_rev. fold m.
  rewrite (extname_loop_init _ _ He') by lia.
  cbn [Path.extname_loop].
  assert (exists st,
            Path.extname_step (Z.of_nat (n + S m) - 1 - Z.of_nat m)
              Path.CHAR_DOT
              match rev (list_ascii_of_string ext) with
              | [] => Path.extname_init
              | _ :: _ =>
                  {| Path.startDot := -1; Path.startPart := 0;
                     Path.end_ := Z.of_nat (n + S m) - 1 + 1;
                     Path.matchedSlash := false; Path.preDotState := 0 |}
              end = (st, false)
            /\ Path.startDot st = Z.of_nat n
            /\ Path.end_ st = Z.of_nat (n + S m)
            /\ Path.preDotState st = 0) as (st & Hstep & Hsd & Hend & Hpds).
  { destruct (rev (list_ascii_of_string ext)) eqn:Hrev.
    - assert (m = 0%nat) as Hm
        by (unfold m; rewrite <- length_rev, Hrev; reflexivity).
      rewrite extname_step_dot by reflexivity. eexists. split; [ reflexivity | ].
      cbn. rewrite Hm. repeat split; lia.
    - rewrite extname_step_dot by reflexivity. eexists. split; [ reflexivity | ].
      cbn [Path.startDot Path.end_ Path.preDotState].
      destruct (Z.eqb_spec (Z.of_nat (n + S m) - 1 + 1) (-1)); repeat split; lia. }
  change (Path.extname_step _ "."%char _) with
    (Path.extname_step (Z.of_nat (n + S m) - 1 - Z.of_nat m)
       Path.CHAR_DOT
       match rev (list_ascii_of_string ext) with
       | [] => Path.extname_init
       | _ :: _ =>
           {| Path.startDot := -1; Path.startPart := 0;
              Path.end_ := Z.of_nat (n + S m) - 1 + 1;
              Path.matchedSlash := false; Path.preDotState := 0 |}
       end).
  rewrite Hstep. cbv iota.
  rewrite (extname_loop_plain _ _ _ Hs') by lia.
  destruct (rev (list_ascii_of_string stem)) as [ | c l ] eqn:Hrev.
  { exfalso. apply Hstem.
    assert (list_ascii_of_string stem = []) as Hnil.
    { apply (f_equal (@rev ascii)) in Hrev. now rewrite rev_involutive in Hrev. }
    destruct stem; [ reflexivity | discriminate Hnil ]. }
  cbn [Path.startDot Path.startPart Path.end_ Path.matchedSlash
       Path.preDotState].
  rewrite Hsd, Hend.
  rewrite (proj2 (Z.eqb_neq (Z.of_nat n) (-1))) by lia.
  cbn [orb].
  rewrite (proj2 (Z.eqb_neq (Z.of_nat (n + S m)) (-1))) by lia.
  change (-1 =? 0) with false. change (-1 =? 1) with false. cbn [orb andb].
  unfold Path.slice.
  replace (Z.to_nat (Z.of_nat n)) with (String.length stem)
    by (unfold n; rewrite list_ascii_of_string_length; lia).
  replace (Z.to_nat (Z.of_nat (n + S m) - Z.of_nat n))
    with (String.length (String "." ext))
    by (unfold m; rewrite list_ascii_of_string_length; simpl; lia).
  apply substring_append.
Qed.

Lemma hexDigit_plain (n : N) : plain (Uuid.hexDigit n).
Proof.
  unfold Uuid.hexDigit.
  destruct (nth_in_or_default (N.to_nat n)
              (list_ascii_of_string "0123456789abcdef") "0"%char)
    as [Hin | ->]; [ | split; discriminate ].
  revert Hin.
  generalize (nth (N.to_nat n) (list_ascii_of_string "0123456789abcdef")
                  "0"%char).
  intros c Hin. simpl in Hin.
  repeat (destruct Hin as [<- | Hin]; [ split; discriminate | ]).
  destruct Hin.
Qed.

Lemma stringify_plain (arr : list Byte.byte) :
  plain_string (Uuid.stringify arr).
Proof.
  unfold plain_string, Uuid.stringify, Uuid.hex, Uuid.byteToHex.
  string_norm. cbn [list_ascii_of_string].
  repeat (constructor; [ first [ apply hexDigit_plain | split; discriminate ] | ]).
  constructor.
Qed.



Example extname_of_generated_names :
  Path.extname "cert_2a2a2a2a-2a2a-2a2a-2a2a-2a2a2a2a2a00.pfx" = ".pfx"
  /\ Path.extname "2a2a2a2a-2a2a-2a2a-2a2a-2a2a2a2a2a00" = "".
Proof. split; vm_compute; reflexivity. Qed.

(** ** Streams that fail mid-transfer *)






(** * Further properties of the handlers *)

(** ** The classifier in terms of the time difference *)

Lemma classify_expired_iff (expirationDate now : Z) :
  classify expirationDate now = expired <-> expirationDate - now <= - day_ms.
Proof.
  unfold classify. rewrite statusOf_expired. unfold daysUntilExpiration.
  pose proof (ceil_div_bounds (expirationDate - now) day_ms day_ms_pos).
  pose proof day_ms_pos. split; intros; nia.
Qed.

Lemma classify_active_iff (expirationDate now : Z) :
  classify expirationDate now = active <-> 30 * day_ms < expirationDate - now.
Proof.
  unfold classify. rewrite statusOf_active. unfold daysUntilExpiration.
  pose proof (ceil_div_bounds (expirationDate - now) day_ms day_ms_pos).
  pose proof day_ms_pos. split; intros; nia.
Qed.

Lemma classify_expiring_soon_iff (expirationDate now : Z) :
  classify expirationDate now = expiring_soon
  <-> - day_ms < expirationDate - now <= 30 * day_ms.
Proof.
  pose proof (classify_expired_iff expirationDate now) as He.
  pose proof (classify_active_iff expirationDate now) as Ha.
  destruct (classify expirationDate now); split; intros H;
    try discriminate; try reflexivity.
  - assert (30 * day_ms < expirationDate - now) by now apply Ha. lia.
  - assert (expirationDate - now <= - day_ms) by now apply He. lia.
  - split.
    + destruct (Z.le_gt_cases (expirationDate - now) (- day_ms)) as [Hle | Hgt];
        [ apply He in Hle; discriminate | lia ].
    + destruct (Z.le_gt_cases (expirationDate - now) (30 * day_ms))
        as [Hle | Hgt]; [ lia | apply Ha in Hgt; discriminate ].
Qed.

(** X1. In milliseconds: a certificate is [expired] only once it has been
    past its expiration date for a full day or more; from less than a day
    past the date up to exactly 30 days before it, it is [expiring_soon];
    more than 30 days before it, [active]. *)
Theorem classify_by_time_difference (expirationDate now : Z) :
  (classify expirationDate now = expired
     <-> expirationDate - now <= - 86400000)
  /\ (classify expirationDate now = expiring_soon
      <-> - 86400000 < expirationDate - now <= 2592000000)
  /\ (classify expirationDate now = active
      <-> 2592000000 < expirationDate - now).
Proof.
  split; [ apply classify_expired_iff | ].
  split; [ apply classify_expiring_soon_iff | apply classify_active_iff ].
Qed.

(** X2. The classification is monotone in the remaining time: with more
    time left an [active] certificate stays [active], and with less time
    left an [expired] one stays [expired]. *)
Theorem classify_monotone (expirationDate1 now1 expirationDate2 now2 : Z) :
  expirationDate1 - now1 <= expirationDate2 - now2 ->
  (classify expirationDate1 now1 = active ->
   classify expirationDate2 now2 = active)
  /\ (classify expirationDate2 now2 = expired ->
      classify expirationDate1 now1 = expired).
Proof.
  intros Hle. rewrite !classify_active_iff, !classify_expired_iff. lia.
Qed.

Lemma classify_monotone_witness :
  (classify 4000000000 0 = active -> classify 5000000000 1000 = active)
  /\ (classify 5000000000 1000 = expired -> classify 4000000000 0 = expired).
Proof. apply classify_monotone. lia. Defined.

(** ** What a request can change *)

(** Case analysis on the run of an ingest handler recorded in [Hrun]. *)
Ltac upload_cases body w Hrun :=
  destruct body as [ | parts ];
  [ rewrite post_upload_not_multipart in Hrun
  | destruct (first_file parts) as [data | ] eqn:Hfile;
    [ destruct (decide (mimetype data ∈ allowedTypes)) as [Hmime | Hmime];
      [ let Hacc := fresh "Hacc" in
        pose proof (post_upload_accepted parts data w Hfile Hmime) as Hacc;
        cbv zeta in Hacc; rewrite Hacc in Hrun; clear Hacc
      | rewrite (post_upload_invalid_type parts data w Hfile Hmime) in Hrun ]
    | rewrite (post_upload_no_file parts w Hfile) in Hrun ] ].

Ltac certificate_cases body w Hrun :=
  destruct body as [ | parts ];
  [ rewrite post_upload_certificate_not_multipart in Hrun
  | destruct (collect_parts parts) as [[data | ] password] eqn:Hparts;
    [ destruct (decide (password = "")) as [-> | Hpw];
      [ rewrite (post_upload_certificate_no_password _ _ w Hparts) in Hrun
      | destruct (decide (Path.toLowerCase (Path.extname (filename data))
                            ∈ allowedExtensions)) as [Hext | Hext];
        [ destruct (Z.lt_ge_cases maxSize (buffered data)) as [Hbig | Hsmall];
          [ rewrite (post_upload_certificate_too_large
                       _ _ _ w Hparts Hpw Hext Hbig) in Hrun
          | let Hacc := fresh "Hacc" in
            pose proof (post_upload_certificate_accepted
                          _ _ _ w Hparts Hpw Hext Hsmall) as Hacc;
            cbv zeta in Hacc; rewrite Hacc in Hrun; clear Hacc ]
        | rewrite (post_upload_certificate_invalid_type
                     _ _ _ w Hparts Hpw Hext) in Hrun ] ]
    | rewrite (post_upload_certificate_no_file _ _ w Hparts) in Hrun ] ].

(** X3. A request answered 400 or 404 has changed nothing: no file is
    written or removed, no identifier is drawn, the clock is not read. *)
Theorem client_error_changes_nothing (req : Request) (w w' : World)
    (reply : Reply) :
  handle req w = (Normal reply, w') ->
  code reply = 400 \/ code reply = 404 ->
  w' = w.
Proof.
  intros Hrun Hcode.
  destruct req as [body | | filename | body | | filename]; simpl handle in Hrun.
  - upload_cases body w Hrun;
      [ | destruct (aborted data) | | ]; injection Hrun as <- <-;
      solve [ reflexivity | destruct Hcode; discriminate ].
  - destruct (get_images_run w) as (images & Hlist & _).
    rewrite Hlist in Hrun. now injection Hrun as <- <-.
  - rewrite delete_image_run in Hrun.
    destruct (uploads w !! filename); injection Hrun as <- <-;
      solve [ reflexivity | destruct Hcode; discriminate ].
  - certificate_cases body w Hrun;
      [ | | | destruct (aborted data) | | ]; injection Hrun as <- <-;
      solve [ reflexivity | destruct Hcode; discriminate ].
  - destruct (get_certificates_run w) as (certs & Hlist & _).
    rewrite Hlist in Hrun. injection Hrun as <- <-.
    destruct Hcode; discriminate.
  - rewrite delete_certificate_run in Hrun.
    destruct (certificates w !! filename);
      [ destruct (isCertificateFile filename) | ]; injection Hrun as <- <-;
      solve [ reflexivity | destruct Hcode; discriminate ].
Qed.

Lemma client_error_changes_nothing_witness :
  (delete_certificate "readme.txt" stray_world).2 = stray_world.
Proof.
  apply (client_error_changes_nothing (DELETE_certificates "readme.txt")
           stray_world _
           (error_reply 400 "Arquivo inválido"
              "Apenas certificados .pfx e .p12 podem ser deletados por esta rota")).
  - simpl handle. rewrite delete_certificate_run.
    replace (certificates stray_world !! "readme.txt")
      with (Some [Byte.x68; Byte.x69]) by (vm_compute; reflexivity).
    replace (isCertificateFile "readme.txt") with false
      by (vm_compute; reflexivity).
    reflexivity.
  - left. reflexivity.
Defined.

Ltac world_simpl :=
  cbn [uploads certificates clock ticks rng draws write_file set_dir_files
       dir_files drawn tick] in *.




(** ** The shape of what [path.extname] returns *)

Lemma extname_step_keeps_dot (i : Z) (c : ascii) (st : Path.ExtnameState) :
  Path.startDot st <> -1 -> Path.end_ st <> -1 ->
  Path.startDot (Path.extname_step i c st).1 = Path.startDot st
  /\ Path.end_ (Path.extname_step i c st).1 = Path.end_ st.
Proof.
  intros Hsd Hend. unfold Path.extname_step.
  rewrite (proj2 (Z.eqb_neq _ _) Hend), (proj2 (Z.eqb_neq _ _) Hsd).
  destruct (Ascii.eqb c Path.CHAR_FORWARD_SLASH);
    [ destruct (negb (Path.matchedSlash st)); now split | ].
  destruct (Ascii.eqb c Path.CHAR_DOT); cbn [negb fst];
    [ destruct (negb (Path.preDotState st =? 1)) | ]; now split.
Qed.

Lemma extname_loop_keeps_dot (l : list ascii) (i : Z)
    (st : Path.ExtnameState) :
  Path.startDot st <> -1 -> Path.end_ st <> -1 ->
  Path.startDot (Path.extname_loop l i st) = Path.startDot st
  /\ Path.end_ (Path.extname_loop l i st) = Path.end_ st.
Proof.
  revert i st. induction l as [ | c l IH ]; intros i st Hsd Hend;
    [ now split | ].
  cbn [Path.extname_loop].
  destruct (extname_step_keeps_dot i c st Hsd Hend) as [Hsd' Hend'].
  destruct (Path.extname_step i c st) as [st' stop]. cbn [fst] in *.
  destruct stop; [ now split | ].
  destruct (IH (i - 1) st') as [IHsd IHend]; [ congruence .. | ].
  split; congruence.
Qed.

Lemma dotted_loop (chars l : list ascii) (i : Z) (st : Path.ExtnameState) :
  dotted chars st -> dotted chars (Path.extname_loop l i st).
Proof.
  intros (stem & ext & rest & Hchars & Hext & Hsd & Hend).
  destruct (extname_loop_keeps_dot l i st) as [Hsd' Hend']; [ lia .. | ].
  exists stem, ext, rest. repeat split; (assumption || congruence).
Qed.

(** The scan of [pre], from the end, started in a state that fits the
    already scanned [suf]: either no dot is found, or the result is
    [dotted]. *)
Lemma extname_loop_shape (pre : list ascii) :
  forall (suf : list ascii) (st : Path.ExtnameState),
    (Path.end_ st = -1 /\ Path.startDot st = -1)
    \/ (Path.startDot st = -1 /\ Path.matchedSlash st = false
        /\ exists body rest,
             suf = (body ++ rest)%list /\ Forall plain body
             /\ Path.end_ st
                = Z.of_nat (length pre) + Z.of_nat (length body))
    \/ dotted (pre ++ suf)%list st ->
    let st' := Path.extname_loop (rev pre) (Z.of_nat (length pre) - 1) st in
    Path.startDot st' = -1 \/ dotted (pre ++ suf)%list st'.
Proof.
  induction pre as [ | c pre IH ] using rev_ind; intros suf st Hinv; cbv zeta.
  { cbn [rev Path.extname_loop]. destruct Hinv as [[_ H] | [[H _] | H]];
      [ now left | now left | now right ]. }
  rewrite rev_app_distr. cbn [rev app Path.extname_loop].
  rewrite length_app. cbn [length].
  replace (Z.of_nat (length pre + 1) - 1) with (Z.of_nat (length pre)) by lia.
  replace (Z.of_nat (length pre) - 1) with (Z.of_nat (length pre) - 1) by lia.
  rewrite <- app_assoc. cbn [app].
  destruct Hinv as [[Hend Hsd] | [(Hsd & Hms & body & rest & Hsuf & Hbody & Hend)
                                 | Hdot]].
  - (* nothing but separators so far *)
    unfold Path.extname_step.
    destruct (Ascii.eqb_spec c Path.CHAR_FORWARD_SLASH) as [-> | Hslash].
    + destruct (negb (Path.matchedSlash st)); [ now left | ].
      apply IH. left. now split.
    + rewrite Hend. change (-1 =? -1) with true. cbv iota.
      cbn [Path.startDot Path.end_ Path.startPart Path.matchedSlash
           Path.preDotState].
      rewrite Hsd. change (-1 =? -1) with true. cbv iota.
      destruct (Ascii.eqb_spec c Path.CHAR_DOT) as [-> | Hdot].
      * apply IH. right. right. exists pre, [], suf.
        cbn [app length Path.startDot Path.end_].
        split; [ reflexivity | ]. split; [ constructor | ]. split; lia.
      * cbn [negb]. apply IH. right. left.
        cbn [Path.startDot Path.matchedSlash Path.end_].
        split; [ reflexivity | ]. split; [ reflexivity | ].
        exists [c], suf. cbn [app length].
        split; [ reflexivity | ].
        split; [ constructor; [ now split | constructor ] | lia ].
  - (* inside the last component, no dot yet *)
    unfold Path.extname_step.
    destruct (Ascii.eqb_spec c Path.CHAR_FORWARD_SLASH) as [-> | Hslash].
    + rewrite Hms. cbn [negb]. now left.
    + assert (Path.end_ st <> -1) as Hne by lia.
      rewrite (proj2 (Z.eqb_neq _ _) Hne), Hsd.
      change (-1 =? -1) with true. cbv iota.
      destruct (Ascii.eqb_spec c Path.CHAR_DOT) as [-> | Hdot].
      * apply IH. right. right. exists pre, body, rest.
        cbn [Path.startDot Path.end_]. rewrite Hsuf.
        split; [ reflexivity | ]. split; [ assumption | ].
        split; [ reflexivity | ].
        rewrite Hend, length_app. cbn [length]. lia.
      * cbn [negb]. apply IH. right. left.
        split; [ exact Hsd | ]. split; [ exact Hms | ].
        exists (c :: body), rest. rewrite Hsuf. cbn [app length].
        split; [ reflexivity | ].
        split; [ constructor; [ now split | assumption ] | ].
        rewrite Hend, length_app. cbn [length]. lia.
  - (* the dot has been found *)
    right.
    assert (dotted (pre ++ c :: suf)%list st) as Hdot'
      by (now rewrite <- app_assoc in Hdot).
    destruct Hdot' as (stem & ext & rest & Hchars & Hext & Hsd & Hend).
    destruct (extname_step_keeps_dot (Z.of_nat (length pre)) c st)
      as [Hsd' Hend']; [ lia .. | ].
    destruct (Path.extname_step _ c st) as [st' stop]. cbn [fst] in *.
    assert (dotted (pre ++ c :: suf)%list st') as Hst'
      by (exists stem, ext, rest; repeat split; (assumption || congruence)).
    destruct stop; [ exact Hst' | now apply dotted_loop ].
Qed.

Lemma substring_middle (stem mid rest : list ascii) :
  String.substring (length stem) (length mid)
    (string_of_list_ascii (stem ++ mid ++ rest)%list)
  = string_of_list_ascii mid.
Proof.
  induction stem as [ | c stem IH ]; [ | exact IH ].
  cbn [app length]. revert rest.
  induction mid as [ | c mid IH ]; intros rest.
  - cbn [app length]. now destruct (string_of_list_ascii rest).
  - cbn [app length string_of_list_ascii String.substring]. now rewrite IH.
Qed.

Lemma plain_string_of_list (l : list ascii) :
  Forall plain l -> plain_string (string_of_list_ascii l).
Proof.
  unfold plain_string. now rewrite list_ascii_of_string_of_list_ascii.
Qed.

(** [path.extname] returns the empty string, or a dot followed by characters
    that are neither dots nor separators. *)
Lemma extname_shape (path : string) :
  Path.extname path = ""
  \/ exists ext, Path.extname path = String "." ext /\ plain_string ext.
Proof.
  unfold Path.extname. cbv zeta.
  pose proof (extname_loop_shape (list_ascii_of_string path) []
                Path.extname_init) as Hshape.
  cbv zeta in Hshape.
  destruct Hshape as [Hnone | (stem & ext & rest & Hchars & Hext & Hsd & Hend)].
  { left. now split. }
  - rewrite Hnone. now left.
  - destruct (_ || _ || _ || _)%bool; [ now left | ]. right.
    exists (string_of_list_ascii ext).
    split; [ | now apply plain_string_of_list ].
    unfold Path.slice. rewrite Hsd, Hend.
    replace (Z.to_nat (Z.of_nat (length stem))) with (length stem) by lia.
    replace (Z.to_nat (Z.of_nat (length stem) + 1 + Z.of_nat (length ext)
                       - Z.of_nat (length stem)))
      with (length ("."%char :: ext)) by (cbn [length]; lia).
    rewrite <- (string_of_list_ascii_of_string path) at 1.
    rewrite app_nil_r in Hchars. rewrite Hchars.
    change (stem ++ "."%char :: ext ++ rest)%list
      with (stem ++ ("."%char :: ext) ++ rest)%list.
    now rewrite substring_middle.
Qed.

Lemma extname_plain (stem : string) :
  plain_string stem -> Path.extname stem = "".
Proof.
  intros Hplain. unfold Path.extname. cbv zeta.
  destruct (list_ascii_of_string stem) as [ | c l ] eqn:Hchars;
    [ reflexivity | ].
  rewrite extname_loop_init.
  - destruct (rev (c :: l)); reflexivity.
  - apply Forall_rev. unfold plain_string in Hplain. now rewrite Hchars in Hplain.
  - cbn [length]. lia.
Qed.

Lemma append_empty_r (s : string) : s +:+ "" = s.
Proof.
  induction s as [ | c s IH ]; [ reflexivity | ].
  now rewrite append_cons, IH.
Qed.

(** The extension of a generated name is the extension it was given. *)
Lemma extname_generated (stem path : string) :
  stem <> "" -> plain_string stem ->
  Path.extname (stem +:+ Path.extname path) = Path.extname path.
Proof.
  intros Hstem Hplain.
  destruct (extname_shape path) as [-> | (ext & -> & Hext)].
  - rewrite append_empty_r. now apply extname_plain.
  - now apply extname_stem_ext.
Qed.

Lemma stringify_nonempty (arr : list Byte.byte) : Uuid.stringify arr <> "".
Proof.
  intros Heq. pose proof (stringify_length arr) as Hlen.
  rewrite Heq in Hlen. discriminate.
Qed.

(** The image listing recognises a stored image name exactly when it would
    recognise the name the client gave. *)
Lemma image_name_is_listed (arr : list Byte.byte) (original : string) :
  isImageFile (imageFilename (Uuid.stringify arr) (Path.extname original))
  = isImageFile original.
Proof.
  unfold isImageFile, imageFilename.
  now rewrite extname_generated
    by (apply stringify_nonempty || apply stringify_plain).
Qed.

(** ** Ingest, listing and deletion together *)

Lemma get_images_members (w : World) :
  exists images,
    get_images w =
      (Normal {| code := 200;
                 payload := ImagesBody images (Z.of_nat (length images)) |}, w)
    /\ (forall name : string,
          name ∈ ImageInfo.filename <$> images
          <-> is_Some (uploads w !! name) /\ isImageFile name = true)
    /\ (forall i, i ∈ images ->
          exists bytes, uploads w !! ImageInfo.filename i = Some bytes
                        /\ ImageInfo.size i = Z.of_nat (length bytes)).
Proof.
  destruct (get_images_run w) as (images & Hrun & Hnames & Hsz).
  exists images. split; [ exact Hrun | ]. split.
  - intros name. now rewrite Hnames, elem_of_List_filter, elem_of_readdir.
  - now apply Forall_forall.
Qed.




(** X6. An image that was ingested successfully and whose original file
    name has a whitelisted extension (in any letter case) is reported by the
    next listing under the stored name and with the size the ingest
    reported; deleting it by that name succeeds, after which the listing no
    longer reports it and a second deletion answers 404 without changing
    anything. *)
Theorem image_round_trip (parts : list Part) (data : MultipartFile)
    (w : World) :
  first_file parts = Some data ->
  mimetype data ∈ ["image/jpeg"; "image/jpg"; "image/png"; "image/gif"] ->
  Path.toLowerCase (Path.extname (filename data))
    ∈ [".jpg"; ".jpeg"; ".png"; ".gif"] ->
  aborted data = false ->
  exists r w1,
    post_upload (Multipart parts) w =
      (Normal {| code := 200; payload := UploadBody r |}, w1)
    /\ (exists images i,
          get_images w1 =
            (Normal {| code := 200;
                       payload := ImagesBody images
                                    (Z.of_nat (length images)) |}, w1)
          /\ i ∈ images
          /\ ImageInfo.filename i = UploadResponse.filename r
          /\ ImageInfo.size i = UploadResponse.size r)
    /\ exists w2,
         delete_image (UploadResponse.filename r) w1 =
           (Normal {| code := 200;
                      payload := DeletedBody true
                                   "Imagem deletada com sucesso" |}, w2)
         /\ (exists images,
               get_images w2 =
                 (Normal {| code := 200;
                            payload := ImagesBody images
                                         (Z.of_nat (length images)) |}, w2)
               /\ UploadResponse.filename r ∉ ImageInfo.filename <$> images)
         /\ delete_image (UploadResponse.filename r) w2 =
              (Normal (error_reply 404 "Arquivo não encontrado"
                         "A imagem especificada não existe"), w2).
Proof.
  intros Hfile Hmime Hext Habort.
  pose proof (post_upload_accepted parts data w Hfile Hmime) as Hrun.
  cbv zeta in Hrun. rewrite Habort in Hrun.
  set (name := imageFilename _ _) in Hrun.
  set (w1 := write_file _ _ _ _) in Hrun.
  assert (uploads w1 !! name = Some (limited (sent data))) as Hstored
    by apply (lookup_write_file uploadsDir).
  assert (isImageFile name = true) as Himage.
  { unfold name. rewrite image_name_is_listed.
    unfold isImageFile. now apply includes_elem_of. }
  eexists _, w1. split; [ exact Hrun | ].
  cbn [UploadResponse.filename UploadResponse.size].
  split.
  - destruct (get_images_members w1) as (images & Hlist & Hmem & Hsz).
    assert (name ∈ ImageInfo.filename <$> images) as Hin
      by (apply Hmem; split; [ eexists; exact Hstored | exact Himage ]).
    apply list_elem_of_fmap in Hin as (i & Hname & Hi).
    exists images, i. split; [ exact Hlist | ]. split; [ exact Hi | ].
    split; [ now symmetry | ].
    destruct (Hsz i Hi) as (bytes & Hbytes & Hsize).
    rewrite <- Hname, Hstored in Hbytes. injection Hbytes as <-. exact Hsize.
  - eexists. split.
    { rewrite delete_image_run, Hstored. reflexivity. }
    set (w2 := set_dir_files _ _ _).
    assert (uploads w2 !! name = None) as Hgone by apply lookup_delete_eq.
    split.
    + destruct (get_images_members w2) as (images & Hlist & Hmem & _).
      exists images. split; [ exact Hlist | ].
      intros Hin. apply Hmem in Hin as [[bytes Hbytes] _].
      rewrite Hgone in Hbytes. discriminate.
    + now rewrite delete_image_run, Hgone.
Qed.

Lemma image_round_trip_witness :
  exists r w1,
    post_upload (Multipart [FilePart good_png]) empty_world =
      (Normal {| code := 200; payload := UploadBody r |}, w1)
    /\ (exists images i,
          get_images w1 =
            (Normal {| code := 200;
                       payload := ImagesBody images
                                    (Z.of_nat (length images)) |}, w1)
          /\ i ∈ images
          /\ ImageInfo.filename i = UploadResponse.filename r
          /\ ImageInfo.size i = UploadResponse.size r)
    /\ exists w2,
         delete_image (UploadResponse.filename r) w1 =
           (Normal {| code := 200;
                      payload := DeletedBody true
                                   "Imagem deletada com sucesso" |}, w2)
         /\ (exists images,
               get_images w2 =
                 (Normal {| code := 200;
                            payload := ImagesBody images
                                         (Z.of_nat (length images)) |}, w2)
               /\ UploadResponse.filename r ∉ ImageInfo.filename <$> images)
         /\ delete_image (UploadResponse.filename r) w2 =
              (Normal (error_reply 404 "Arquivo não encontrado"
                         "A imagem especificada não existe"), w2).
Proof.
  apply (image_round_trip [FilePart good_png] good_png empty_world).
  - reflexivity.
  - compute_done.
  - compute_done.
  - reflexivity.
Defined.

(** X7. An image ingested with an accepted MIME type but a file name whose
    extension is outside the image whitelist is stored and answered 200, yet
    the image listing does not report it; it can still be deleted by its
    stored name. *)
Theorem unlisted_image_is_stored (parts : list Part) (data : MultipartFile)
    (w : World) :
  first_file parts = Some data ->
  mimetype data ∈ ["image/jpeg"; "image/jpg"; "image/png"; "image/gif"] ->
  Path.toLowerCase (Path.extname (filename data))
    ∉ [".jpg"; ".jpeg"; ".png"; ".gif"] ->
  aborted data = false ->
  exists r w1,
    post_upload (Multipart parts) w =
      (Normal {| code := 200; payload := UploadBody r |}, w1)
    /\ is_Some (uploads w1 !! UploadResponse.filename r)
    /\ (exists images,
          get_images w1 =
            (Normal {| code := 200;
                       payload := ImagesBody images
                                    (Z.of_nat (length images)) |}, w1)
          /\ UploadResponse.filename r ∉ ImageInfo.filename <$> images)
    /\ exists w2,
         delete_image (UploadResponse.filename r) w1 =
           (Normal {| code := 200;
                      payload := DeletedBody true
                                   "Imagem deletada com sucesso" |}, w2)
         /\ uploads w2 !! UploadResponse.filename r = None.
Proof.
  intros Hfile Hmime Hext Habort.
  pose proof (post_upload_accepted parts data w Hfile Hmime) as Hrun.
  cbv zeta in Hrun. rewrite Habort in Hrun.
  set (name := imageFilename _ _) in Hrun.
  set (w1 := write_file _ _ _ _) in Hrun.
  assert (uploads w1 !! name = Some (limited (sent data))) as Hstored
    by apply (lookup_write_file uploadsDir).
  assert (isImageFile name = false) as Himage.
  { unfold name. rewrite image_name_is_listed.
    unfold isImageFile, Path.includes. now apply bool_decide_eq_false_2. }
  eexists _, w1. split; [ exact Hrun | ].
  cbn [UploadResponse.filename].
  split; [ eexists; exact Hstored | ]. split.
  - destruct (get_images_members w1) as (images & Hlist & Hmem & _).
    exists images. split; [ exact Hlist | ].
    intros Hin. apply Hmem in Hin as [_ Hyes]. congruence.
  - eexists. split.
    + rewrite delete_image_run, Hstored. reflexivity.
    + apply lookup_delete_eq.
Qed.

Lemma unlisted_image_is_stored_witness :
  exists r w1,
    post_upload (Multipart [FilePart exe_as_png]) empty_world =
      (Normal {| code := 200; payload := UploadBody r |}, w1)
    /\ is_Some (uploads w1 !! UploadResponse.filename r)
    /\ (exists images,
          get_images w1 =
            (Normal {| code := 200;
                       payload := ImagesBody images
                                    (Z.of_nat (length images)) |}, w1)
          /\ UploadResponse.filename r ∉ ImageInfo.filename <$> images)
    /\ exists w2,
         delete_image (UploadResponse.filename r) w1 =
           (Normal {| code := 200;
                      payload := DeletedBody true
                                   "Imagem deletada com sucesso" |}, w2)
         /\ uploads w2 !! UploadResponse.filename r = None.
Proof.
  apply (unlisted_image_is_stored [FilePart exe_as_png] exe_as_png
           empty_world).
  - reflexivity.
  - compute_done.
  - compute_done.
  - reflexivity.
Defined.



(** ** The parts of a certificate ingest *)

Lemma post_upload_certificate_by_parts (parts1 parts2 : list Part)
    (data : MultipartFile) (password1 password2 : string) (w : World) :
  collect_parts parts1 = (Some data, password1) ->
  collect_parts parts2 = (Some data, password2) ->
  password1 <> "" -> password2 <> "" ->
  post_upload_certificate (Multipart parts1) w
  = post_upload_certificate (Multipart parts2) w.
Proof.
  intros Hparts1 Hparts2 Hpw1 Hpw2.
  destruct (decide (Path.toLowerCase (Path.extname (filename data))
                      ∈ allowedExtensions)) as [Hext | Hext].
  - destruct (Z.lt_ge_cases maxSize (buffered data)) as [Hbig | Hsmall].
    + now rewrite
        (post_upload_certificate_too_large _ _ _ w Hparts1 Hpw1 Hext Hbig),
        (post_upload_certificate_too_large _ _ _ w Hparts2 Hpw2 Hext Hbig).
    + pose proof (post_upload_certificate_accepted
                    _ _ _ w Hparts1 Hpw1 Hext Hsmall) as Hrun1.
      pose proof (post_upload_certificate_accepted
                    _ _ _ w Hparts2 Hpw2 Hext Hsmall) as Hrun2.
      cbv zeta in Hrun1, Hrun2. now rewrite Hrun1, Hrun2.
  - now rewrite
      (post_upload_certificate_invalid_type _ _ _ w Hparts1 Hpw1 Hext),
      (post_upload_certificate_invalid_type _ _ _ w Hparts2 Hpw2 Hext).
Qed.

(** X8. The password is only tested for being non-empty: two certificate
    ingests of the same file part with any two non-empty passwords give the
    same reply and leave the same world, so neither the reply nor storage
    depends on the password's value. *)
Theorem any_password_is_accepted (data : MultipartFile)
    (password1 password2 : string) (w : World) :
  fieldname data = "certificate" ->
  password1 <> "" -> password2 <> "" ->
  post_upload_certificate
    (Multipart [FilePart data; FieldPart "password" password1]) w
  = post_upload_certificate
      (Multipart [FilePart data; FieldPart "password" password2]) w.
Proof.
  intros Hname Hpw1 Hpw2.
  apply (post_upload_certificate_by_parts _ _ data password1 password2);
    try assumption;
    unfold collect_parts; cbn [fold_left collect_part];
    now rewrite Hname.
Qed.

Lemma any_password_is_accepted_witness :
  post_upload_certificate
    (Multipart [FilePart good_certificate; FieldPart "password" "right"])
    empty_world
  = post_upload_certificate
      (Multipart [FilePart good_certificate; FieldPart "password" "wrong"])
      empty_world.
Proof.
  apply (any_password_is_accepted good_certificate "right" "wrong");
    [ reflexivity | discriminate | discriminate ].
Defined.

Lemma collect_keeps_file (parts : list Part)
    (acc : option MultipartFile * string) :
  (forall data, FilePart data ∈ parts -> fieldname data <> "certificate") ->
  (fold_left collect_part parts acc).1 = acc.1.
Proof.
  revert acc. induction parts as [ | part parts IH ]; intros acc Hnone;
    [ reflexivity | ].
  cbn [fold_left]. rewrite IH.
  - destruct part as [data | name value]; cbn [collect_part].
    + destruct (String.eqb_spec (fieldname data) "certificate") as [Heq | ];
        [ | reflexivity ].
      exfalso. apply (Hnone data); [ apply list_elem_of_here | exact Heq ].
    + now destruct (String.eqb name "password").
  - intros data Hin. apply Hnone. now apply list_elem_of_further.
Qed.

Lemma collect_keeps_password (parts : list Part)
    (acc : option MultipartFile * string) :
  (forall value, FieldPart "password" value ∉ parts) ->
  (fold_left collect_part parts acc).2 = acc.2.
Proof.
  revert acc. induction parts as [ | part parts IH ]; intros acc Hnone;
    [ reflexivity | ].
  cbn [fold_left]. rewrite IH.
  - destruct part as [data | name value]; cbn [collect_part].
    + now destruct (String.eqb (fieldname data) "certificate").
    + destruct (String.eqb_spec name "password") as [-> | ]; [ | reflexivity ].
      exfalso. apply (Hnone value). apply list_elem_of_here.
  - intros value Hin. apply (Hnone value). now apply list_elem_of_further.
Qed.

(** X9. When a field is sent more than once, the last one counts: the
    certificate ingest works on the last file part named [certificate] and
    on the value of the last [password] field, wherever they stand among the
    other parts. *)
Theorem last_parts_win (before after : list Part) :
  (forall data : MultipartFile,
      fieldname data = "certificate" ->
      (forall other, FilePart other ∈ after ->
                     fieldname other <> "certificate") ->
      (collect_parts (before ++ FilePart data :: after)).1 = Some data)
  /\ (forall value : string,
        (forall other, FieldPart "password" other ∉ after) ->
        (collect_parts (before ++ FieldPart "password" value :: after)).2
        = value).
Proof.
  unfold collect_parts. split.
  - intros data Hname Hafter.
    rewrite fold_left_app. cbn [fold_left collect_part].
    rewrite Hname. cbn [String.eqb Ascii.eqb Bool.eqb].
    now rewrite collect_keeps_file.
  - intros value Hafter.
    rewrite fold_left_app. cbn [fold_left collect_part].
    now rewrite collect_keeps_password.
Qed.

Lemma last_parts_win_witness :
  (collect_parts
     ([FilePart text_as_certificate; FieldPart "password" "first"]
      ++ FilePart good_certificate :: [FieldPart "password" "second"])).1
    = Some good_certificate
  /\ (collect_parts
        ([FieldPart "password" "first"; FilePart good_certificate]
         ++ FieldPart "password" "second" :: [FieldPart "note" "x"])).2
     = "second".
Proof.
  split.
  - apply (proj1 (last_parts_win
                    [FilePart text_as_certificate; FieldPart "password" "first"]
                    [FieldPart "password" "second"]));
      [ reflexivity | ].
    intros other Hin. apply list_elem_of_singleton in Hin. discriminate.
  - apply (proj2 (last_parts_win
                    [FieldPart "password" "first"; FilePart good_certificate]
                    [FieldPart "note" "x"])).
    intros other Hin. apply list_elem_of_singleton in Hin. discriminate.
Defined.

(** ** Edge cases of the ingest *)

(** X10. The ingest never looks whether the generated name is taken: when
    the identifier source returns the identifier of an earlier image again
    and the extensions agree, the second ingest is answered 200 under the
    same stored name and its bytes replace those of the first image. *)
Theorem repeated_identifier_overwrites (parts1 parts2 : list Part)
    (data1 data2 : MultipartFile) (w : World) :
  first_file parts1 = Some data1 -> first_file parts2 = Some data2 ->
  mimetype data1 ∈ ["image/jpeg"; "image/jpg"; "image/png"; "image/gif"] ->
  mimetype data2 ∈ ["image/jpeg"; "image/jpg"; "image/png"; "image/gif"] ->
  aborted data1 = false -> aborted data2 = false ->
  Path.extname (filename data1) = Path.extname (filename data2) ->
  rng w (S (draws w)) = rng w (draws w) ->
  exists r1 w1 r2 w2,
    post_upload (Multipart parts1) w =
      (Normal {| code := 200; payload := UploadBody r1 |}, w1)
    /\ post_upload (Multipart parts2) w1 =
         (Normal {| code := 200; payload := UploadBody r2 |}, w2)
    /\ UploadResponse.filename r2 = UploadResponse.filename r1
    /\ uploads w1 !! UploadResponse.filename r1
         = Some (take (Z.to_nat 5242880) (sent data1))
    /\ uploads w2
         = <[UploadResponse.filename r1 :=
               take (Z.to_nat 5242880) (sent data2)]> (uploads w).
Proof.
  intros Hfile1 Hfile2 Hmime1 Hmime2 Habort1 Habort2 Hext Hrng.
  pose proof (post_upload_accepted parts1 data1 w Hfile1 Hmime1) as Hrun1.
  cbv zeta in Hrun1. rewrite Habort1 in Hrun1.
  set (w1 := write_file _ _ _ _) in Hrun1.
  pose proof (post_upload_accepted parts2 data2 w1 Hfile2 Hmime2) as Hrun2.
  cbv zeta in Hrun2. rewrite Habort2 in Hrun2.
  eexists _, w1, _, _. split; [ exact Hrun1 | ]. split; [ exact Hrun2 | ].
  cbn [UploadResponse.filename].
  assert (imageFilename (Uuid.stringify (rng w1 (draws w1)))
                        (Path.extname (filename data2))
          = imageFilename (Uuid.stringify (rng w (draws w)))
                          (Path.extname (filename data1))) as Hname.
  { unfold w1. world_simpl. change (1 + draws w)%nat with (S (draws w)).
    now rewrite Hrng, Hext. }
  split; [ exact Hname | ].
  split; [ apply (lookup_write_file uploadsDir) | ].
  rewrite Hname. unfold w1. world_simpl. apply insert_insert_eq.
Qed.

Lemma repeated_identifier_overwrites_witness :
  exists r1 w1 r2 w2,
    post_upload (Multipart [FilePart good_png]) repeating_world =
      (Normal {| code := 200; payload := UploadBody r1 |}, w1)
    /\ post_upload (Multipart [FilePart second_png]) w1 =
         (Normal {| code := 200; payload := UploadBody r2 |}, w2)
    /\ UploadResponse.filename r2 = UploadResponse.filename r1
    /\ uploads w1 !! UploadResponse.filename r1
         = Some (take (Z.to_nat 5242880) (sent good_png))
    /\ uploads w2
         = <[UploadResponse.filename r1 :=
               take (Z.to_nat 5242880) (sent second_png)]>
             (uploads repeating_world).
Proof.
  apply (repeated_identifier_overwrites
           [FilePart good_png] [FilePart second_png]
           good_png second_png repeating_world);
    solve [ reflexivity | compute_done ].
Defined.

(** ** The certificate directory over a sequence of requests *)





(** Zero-byte uploads. *)
Lemma limited_nil : limited [] = [].
Proof. unfold limited. apply take_nil. Qed.

(** X13. A file part without any byte passes validation like any other:
    the image ingest answers 200 with size 0 and leaves an empty file under
    the generated name. *)
Theorem empty_image_is_accepted (parts : list Part) (data : MultipartFile)
    (w : World) :
  first_file parts = Some data ->
  mimetype data ∈ ["image/jpeg"; "image/jpg"; "image/png"; "image/gif"] ->
  sent data = [] -> aborted data = false ->
  exists r w',
    post_upload (Multipart parts) w =
      (Normal {| code := 200; payload := UploadBody r |}, w')
    /\ UploadResponse.size r = 0
    /\ uploads w' !! UploadResponse.filename r = Some [].
Proof.
  intros Hfile Hmime Hsent Habort.
  pose proof (post_upload_accepted parts data w Hfile Hmime) as Hrun.
  cbv zeta in Hrun. rewrite Habort, Hsent, limited_nil in Hrun.
  eexists _, _. split; [ exact Hrun | ].
  split; [ reflexivity | apply (lookup_write_file uploadsDir) ].
Qed.

Lemma empty_image_is_accepted_witness :
  exists r w',
    post_upload (Multipart [FilePart empty_png]) empty_world =
      (Normal {| code := 200; payload := UploadBody r |}, w')
    /\ UploadResponse.size r = 0
    /\ uploads w' !! UploadResponse.filename r = Some [].
Proof.
  apply (empty_image_is_accepted [FilePart empty_png] empty_png empty_world);
    solve [ reflexivity | compute_done ].
Defined.

(** ** The original name shown by the certificate listing *)

Lemma string_length_append (s t : string) :
  String.length (s +:+ t) = (String.length s + String.length t)%nat.
Proof.
  induction s as [ | c s IH ]; [ reflexivity | ].
  rewrite append_cons. cbn [String.length]. now rewrite IH.
Qed.

Lemma substring_after_prefix (s t : string) :
  String.substring (String.length s)
    (String.length (s +:+ t) - String.length s) (s +:+ t) = t.
Proof.
  rewrite string_length_append.
  replace (String.length s + String.length t - String.length s)%nat
    with (String.length t) by lia.
  apply substring_append.
Qed.

Lemma hexDigit_in_uuid_class (n : N) : in_uuid_class (Uuid.hexDigit n) = true.
Proof.
  unfold Uuid.hexDigit.
  destruct (nth_in_or_default (N.to_nat n)
              (list_ascii_of_string "0123456789abcdef") "0"%char)
    as [Hin | ->]; [ | reflexivity ].
  revert Hin.
  generalize (nth (N.to_nat n) (list_ascii_of_string "0123456789abcdef")
                  "0"%char).
  intros c Hin. simpl in Hin.
  repeat (destruct Hin as [<- | Hin]; [ reflexivity | ]).
  destruct Hin.
Qed.

Lemma drop_uuid_class_hex (n : N) (s : string) :
  drop_uuid_class (String (Uuid.hexDigit n) s) = drop_uuid_class s.
Proof. cbn [drop_uuid_class]. now rewrite hexDigit_in_uuid_class. Qed.

Lemma drop_uuid_class_dash (s : string) :
  drop_uuid_class (String "-" s) = drop_uuid_class s.
Proof. reflexivity. Qed.

Lemma drop_uuid_class_stringify (arr : list Byte.byte) (tail : string) :
  drop_uuid_class (Uuid.stringify arr +:+ tail) = drop_uuid_class tail.
Proof.
  unfold Uuid.stringify, Uuid.hex, Uuid.byteToHex.
  repeat (progress (rewrite ?append_cons, ?append_nil)).
  now repeat (progress (rewrite ?drop_uuid_class_hex, ?drop_uuid_class_dash)).
Qed.

(** X14. The listing computes [originalName] by removing a leading
    [cert_<uuid>_] from the stored name.  The names the certificate ingest
    generates have no underscore after the identifier, so for them the
    listing's original name is the stored name itself; with an underscore
    after the identifier, what follows it is returned. *)
Theorem original_name_of_stored_certificate (arr : list Byte.byte) :
  (forall ext : string,
      ext ∈ [".pfx"; ".p12"] ->
      strip_cert_prefix (certificateFilename (Uuid.stringify arr) ext)
      = certificateFilename (Uuid.stringify arr) ext)
  /\ (forall original : string,
        strip_cert_prefix
          ("cert_" +:+ Uuid.stringify arr +:+ "_" +:+ original)
        = original).
Proof.
  split.
  - intros ext Hext. unfold strip_cert_prefix, certificateFilename.
    rewrite prefix_append.
    change 5%nat with (String.length "cert_").
    rewrite substring_after_prefix, drop_uuid_class_stringify.
    apply elem_of_cons in Hext as [-> | Hext];
      [ | apply list_elem_of_singleton in Hext as -> ]; reflexivity.
  - intros original. unfold strip_cert_prefix.
    rewrite prefix_append.
    change 5%nat with (String.length "cert_").
    rewrite substring_after_prefix, drop_uuid_class_stringify.
    rewrite append_cons, append_nil. cbn [drop_uuid_class in_uuid_class].
    change (in_uuid_class "_"%char) with false. cbv iota.
    change (Ascii.eqb "_" "_") with true. cbn [andb].
    rewrite string_length_append, stringify_length. cbn [String.length].
    destruct (Nat.ltb_spec (S (String.length original))
                (36 + S (String.length original))) as [ _ | Hge ];
      [ reflexivity | lia ].
Qed.

Lemma original_name_of_stored_certificate_witness :
  strip_cert_prefix (certificateFilename (Uuid.stringify (sample_id 0)) ".pfx")
  = certificateFilename (Uuid.stringify (sample_id 0)) ".pfx".
Proof.
  apply (proj1 (original_name_of_stored_certificate (sample_id 0))).
  compute_done.
Defined.

(** ** Expiration dates in the certificate listing *)

Lemma mapM_certificateInfo_reads (l : list string) (w : World) :
  Forall (fun name => is_Some (certificates w !! name)) l ->
  exists certs,
    mapM certificateInfo l w = (Normal certs, tick (2 * length l) w)
    /\ Forall (fun c => exists n,
                 (ticks w <= n < ticks w + 2 * length l)%nat
                 /\ CertificateInfo.expirationDate c = clock w n + year_ms)
              certs.
Proof.
  intros Hl. revert w Hl.
  induction l as [ | name l IH ]; intros w Hl.
  - exists []. rewrite tick_0. split; [ reflexivity | constructor ].
  - inversion Hl as [ | ? ? [bytes Hname] Hrest ]; subst.
    destruct (IH (tick 2 w) Hrest) as (certs & Hrun & Hall).
    eexists (_ :: certs). simpl mapM. unfold certificateInfo at 1.
    io_unfold. simpl dir_files. rewrite Hname, tick_tick.
    change (1 + 1)%nat with 2%nat. rewrite Hrun, tick_tick.
    replace (2 * length l + 2)%nat with (2 * length (name :: l))%nat
      by (simpl; lia).
    split; [ reflexivity | ].
    constructor.
    + exists (ticks w). cbn [CertificateInfo.expirationDate length].
      split; [ lia | reflexivity ].
    + eapply Forall_impl; [ exact Hall | ].
      intros c (n & Hn & Hdate). exists n. world_simpl.
      cbn [length]. split; [ lia | exact Hdate ].
Qed.

(** X15. The expiration date the listing shows for a certificate is not read
    from the file: it is a clock value read while that listing runs, plus
    exactly 365 days.  With a clock that does not run backwards, every
    listed certificate therefore expires at least 365 days after the
    listing began. *)
Theorem listed_expiration_is_listing_time_plus_a_year (w : World) :
  exists certs w',
    get_certificates w =
      (Normal {| code := 200;
                 payload := CertificatesBody certs
                              (Z.of_nat (length certs)) |}, w')
    /\ Forall (fun c => exists n,
                 (ticks w <= n < ticks w')%nat
                 /\ CertificateInfo.expirationDate c
                    = clock w n + 31536000000) certs
    /\ ((forall m n, (m <= n)%nat -> clock w m <= clock w n) ->
        Forall (fun c => clock w (ticks w) + 31536000000
                         <= CertificateInfo.expirationDate c) certs).
Proof.
  destruct (mapM_certificateInfo_reads
              (List.filter isCertificateFile
                 (map_to_list (certificates w)).*1) w
              (readdir_filter_stored (certificates w) isCertificateFile))
    as (certs & Hrun & Hreads).
  destruct (get_certificates_run w) as (certs' & Hrun' & Hnames & _).
  assert (length (List.filter isCertificateFile
                    (map_to_list (certificates w)).*1) = length certs') as Hlen
    by (rewrite <- Hnames; apply length_fmap).
  assert (certs = certs') as <-.
  { unfold get_certificates in Hrun'. revert Hrun'. io_unfold.
    simpl dir_files. rewrite Hrun. now intros [= <- _]. }
  exists certs, (tick (2 * length certs) w).
  split; [ exact Hrun' | ].
  assert (Forall (fun c => exists n,
                    (ticks w <= n < ticks (tick (2 * length certs) w))%nat
                    /\ CertificateInfo.expirationDate c
                       = clock w n + 31536000000) certs) as Hdates.
  { eapply Forall_impl; [ exact Hreads | ].
    intros c (n & Hn & Hdate). exists n. world_simpl.
    rewrite Hlen in Hn. split; [ lia | exact Hdate ]. }
  split; [ exact Hdates | ].
  intros Hmono. eapply Forall_impl; [ exact Hdates | ].
  intros c (n & Hn & ->). cbv beta.
  pose proof (Hmono (ticks w) n ltac:(lia)). lia.
Qed.

Lemma listed_expiration_is_listing_time_plus_a_year_witness :
  exists certs w',
    get_certificates stocked_world =
      (Normal {| code := 200;
                 payload := CertificatesBody certs
                              (Z.of_nat (length certs)) |}, w')
    /\ Forall (fun c => clock stocked_world (ticks stocked_world) + 31536000000
                        <= CertificateInfo.expirationDate c) certs.
Proof.
  destruct (listed_expiration_is_listing_time_plus_a_year stocked_world)
    as (certs & w' & Hrun & _ & Hmono).
  exists certs, w'. split; [ exact Hrun | ].
  apply Hmono. intros m n Hmn. unfold stocked_world. cbn [clock]. lia.
Defined.

(** ** Which validation error a certificate ingest gets *)





